(** * Members: magic-link identity resolution, webhook handling and offer durations

    A shallow embedding of
    - [packages/offers/lib/domain/models/OfferDuration.js] ([OfferDuration.create]),
    - the [MembersAPI] factory of [packages/members-api] (its closures
      [hasActiveStripeSubscriptions], [sendEmailWithMagicLink],
      [getMemberDataFromMagicLinkToken], [setMemberGeolocationFromIp] and the
      [handleStripeWebhook] middleware).

    JavaScript values are modelled by small inductive types, [async] functions
    by a state-and-exception monad over an explicit [World]. *)

From Stdlib Require Import List String Ascii Bool ZArith Lia.
From Stdlib Require Import Floats.SpecFloat.
From Stdlib Require Import DecimalString.
Import ListNotations.
Local Open Scope string_scope.

(** ** JavaScript strings *)

(** [!s] is false exactly for the empty string. *)
Definition truthy_string (s : string) : bool :=
  match s with
  | EmptyString => false
  | String _ _ => true
  end.

(** A property that is either [undefined] ([None]) or a string. *)
Definition truthy_opt_string (o : option string) : bool :=
  match o with
  | None => false
  | Some s => truthy_string s
  end.

(** The double-quote character. *)
Definition dq : string := String (ascii_of_nat 34) EmptyString.

(** The string a truthy string property holds, [None] when the property is
    [undefined] or the empty string. *)
Definition as_truthy (o : option string) : option string :=
  match o with
  | Some s => if truthy_string s then Some s else None
  | None => None
  end.

(** A property that is [null]/[undefined] ([None]) or an object. *)
Definition truthy_object {A : Type} (o : option A) : bool :=
  match o with
  | Some _ => true
  | None => false
  end.

(** ** OfferDuration.js *)

Module OfferDuration.

(** The [unknown] arguments of [create].  Numbers are IEEE-754 doubles,
    objects (arrays, functions, ...) are opaque. *)
Inductive JsValue : Type :=
| JsUndefined
| JsNull
| JsBoolean (b : bool)
| JsNumber (n : spec_float)
| JsString (s : string)
| JsObject (ref : nat).

Inductive JsType : Type :=
| TUndefined | TObject | TBoolean | TNumber | TString.

Definition JsType_eqb (a b : JsType) : bool :=
  match a, b with
  | TUndefined, TUndefined | TObject, TObject | TBoolean, TBoolean
  | TNumber, TNumber | TString, TString => true
  | _, _ => false
  end.

(** [typeof v] ([typeof null] is ['object']). *)
Definition typeof (v : JsValue) : JsType :=
  match v with
  | JsUndefined => TUndefined
  | JsNull => TObject
  | JsBoolean _ => TBoolean
  | JsNumber _ => TNumber
  | JsString _ => TString
  | JsObject _ => TObject
  end.

(** ToBoolean. *)
Definition truthy (v : JsValue) : bool :=
  match v with
  | JsUndefined | JsNull => false
  | JsBoolean b => b
  | JsNumber (S754_zero _) | JsNumber S754_nan => false
  | JsNumber _ => true
  | JsString s => truthy_string s
  | JsObject _ => true
  end.

(** [type !== 'lit']: strict inequality against a string literal. *)
Definition strict_neq_string (v : JsValue) (lit : string) : bool :=
  match v with
  | JsString s => negb (String.eqb s lit)
  | _ => true
  end.

(** [Number.isInteger] on a double: finite, and [m * 2^e] has no
    fractional part. *)
Definition float_isInteger (n : spec_float) : bool :=
  match n with
  | S754_zero _ => true
  | S754_infinity _ => false
  | S754_nan => false
  | S754_finite _ m e =>
      if (0 <=? e)%Z then true
      else (Z.pos m mod 2 ^ (- e) =? 0)%Z
  end.

Definition Number_isInteger (v : JsValue) : bool :=
  match v with
  | JsNumber n => float_isInteger n
  | _ => false
  end.

Inductive Error : Type :=
| InvalidOfferDuration (message : string).

(** The value wrapped by the [ValueObject]: [{type}] or [{type, months}]. *)
Record t : Type := mk {
  type : string;
  months : option spec_float
}.

Definition msg_not_string : string :=
  "Offer `duration` must be a string.".
Definition msg_not_one_of : string :=
  "Offer `duration` must be one of " ++ dq ++ "once" ++ dq ++ ", "
    ++ dq ++ "repeating" ++ dq ++ " or " ++ dq ++ "forever" ++ dq ++ ".".
Definition msg_no_months : string :=
  "Offer `duration` must have include `duration_in_months` when "
    ++ dq ++ "repeating" ++ dq ++ ".".
Definition msg_not_integer : string :=
  "Offer `duration_in_months` must be an integer.".

Definition create (type months : JsValue) : t + Error :=
  if negb (truthy type) || negb (JsType_eqb (typeof type) TString) then
    inr (InvalidOfferDuration msg_not_string)
  else if strict_neq_string type "once"
          && strict_neq_string type "repeating"
          && strict_neq_string type "forever" then
    inr (InvalidOfferDuration msg_not_one_of)
  else
    match type with
    | JsString ty =>
        if strict_neq_string type "repeating" then
          inl (mk ty None)
        else if negb (JsType_eqb (typeof months) TNumber) then
          inr (InvalidOfferDuration msg_no_months)
        else if negb (Number_isInteger months) then
          inr (InvalidOfferDuration msg_not_integer)
        else
          match months with
          | JsNumber n => inl (mk ty (Some n))
          | _ => inr (InvalidOfferDuration msg_no_months) (* typeof checked above *)
          end
    | _ => inr (InvalidOfferDuration msg_not_string) (* typeof checked above *)
    end.

Definition throws (r : t + Error) : Prop :=
  exists message, r = inr (InvalidOfferDuration message).

(** "type is one of the strings 'once', 'repeating', 'forever'". *)
Definition valid_type (v : JsValue) : Prop :=
  v = JsString "once" \/ v = JsString "repeating" \/ v = JsString "forever".

(** "months is an integer number". *)
Definition integer_number (v : JsValue) : Prop :=
  exists n, v = JsNumber n /\ float_isInteger n = true.

(** The properties [value.type] and [value.months] of a created duration,
    as JavaScript values ([months] is [undefined] when absent). *)
Definition prop_type (v : t) : JsValue := JsString (type v).

Definition prop_months (v : t) : JsValue :=
  match months v with
  | Some n => JsNumber n
  | None => JsUndefined
  end.

End OfferDuration.

(** ** MembersAPI.js *)

Module MembersAPI.

(** *** Errors *)

(** A thrown error object; [err_statusCode] is [undefined] for plain
    JavaScript errors. *)
Record JsError : Type := mkError {
  err_name : string;
  err_message : string;
  err_statusCode : option Z
}.

Definition IncorrectUsageError (message : string) : JsError :=
  mkError "IncorrectUsageError" message (Some 400%Z).

Definition NotFoundError (message : string) : JsError :=
  mkError "NotFoundError" message (Some 404%Z).

(** Raised by the runtime when a property of [null] is read. *)
Definition TypeError (message : string) : JsError :=
  mkError "TypeError" message None.

(** Modelled from the spec: the [Conflict] failure of the member repository
    (email uniqueness violation); the repository is not part of the
    sources at hand. *)
Definition Conflict (message : string) : JsError :=
  mkError "Conflict" message None.

(** *** Data *)

Record Member : Type := mkMember {
  m_id : nat;
  m_email : string;
  m_name : string;
  m_labels : list string;
  m_geolocation : option string
}.

(** The data decoded from a magic-link token; every property may be
    [undefined]. *)
Record TokenData : Type := mkTokenData {
  td_email : option string;
  td_labels : option (list string);
  td_name : option string;
  td_oldEmail : option string
}.

Definition emptyTokenData : TokenData := mkTokenData None None None None.

Record Subscription : Type := mkSubscription {
  sub_id : string;
  sub_status : string
}.

Record LoginEvent : Type := mkLoginEvent {
  member_id : nat
}.

(** What [magicLinkService.sendMagicLink] is handed. *)
Record MagicLink : Type := mkMagicLink {
  ml_email : string;
  ml_type : string;
  ml_requestSrc : string;
  ml_tokenData : TokenData
}.

Record WebhookEvent : Type := mkWebhookEvent {
  ev_id : string;
  ev_type : string
}.

(** A value read from a JSON response: the fields of an object come in
    its property order under distinct keys, and a number is held as the
    decimal text JavaScript prints for it (numbers are finite). *)
#[warnings="-register-all"] Inductive Json : Type :=
| JsonNull
| JsonBoolean (b : bool)
| JsonNumber (text : string)
| JsonString (s : string)
| JsonArray (items : list Json)
| JsonObject (fields : list (string * Json)).

(** The result of the geolocation lookup, before [JSON.stringify]:
    [undefined] or the body of the response. *)
Inductive GeoValue : Type :=
| GeoUndefined
| GeoJson (body : Json).

Definition GeoNull : GeoValue := GeoJson JsonNull.

Definition GeoObject (fields : list (string * Json)) : GeoValue :=
  GeoJson (JsonObject fields).

(** [req.body] as [body.raw({type: 'application/json'})] leaves it for the
    handler: the payload as a Buffer, or the empty object the parser puts
    there when the request has no JSON payload. *)
Inductive RawBody : Type :=
| RawBuffer (payload : string)
| RawEmptyObject.

Inductive LogEntry : Type :=
| LogError (message : string)
| LogInfo (message : string).

(** Calls made to the collaborators, in order. *)
Inductive Call : Type :=
| CallUsersGet (email : string)
| CallUsersCreate (name email : string) (labels : list string)
| CallUsersUpdate (data : Member) (id : nat)
| CallRead (email : string)
| CallLoginEventAdd (id : nat)
| CallFindOneSubscription (status : string)
| CallSendMagicLink (link : MagicLink)
| CallGetGeolocationFromIP (ip : string)
| CallParseWebhook (body : RawBody) (signature : string)
| CallHandleWebhook (event : WebhookEvent).

(** *** The world the closures of [MembersAPI] act on *)

Record World : Type := mkWorld {
  members : list Member;
  login_events : list LoginEvent;
  subscriptions : list Subscription;
  outbox : list MagicLink;
  stripe_configured : bool;
  log : list LogEntry;
  calls : list Call
}.

Definition set_members (ms : list Member) (w : World) : World :=
  mkWorld ms (login_events w) (subscriptions w) (outbox w)
          (stripe_configured w) (log w) (calls w).

Definition set_login_events (es : list LoginEvent) (w : World) : World :=
  mkWorld (members w) es (subscriptions w) (outbox w)
          (stripe_configured w) (log w) (calls w).

Definition set_outbox (o : list MagicLink) (w : World) : World :=
  mkWorld (members w) (login_events w) (subscriptions w) o
          (stripe_configured w) (log w) (calls w).

Definition set_log (l : list LogEntry) (w : World) : World :=
  mkWorld (members w) (login_events w) (subscriptions w) (outbox w)
          (stripe_configured w) l (calls w).

Definition set_calls (cs : list Call) (w : World) : World :=
  mkWorld (members w) (login_events w) (subscriptions w) (outbox w)
          (stripe_configured w) (log w) cs.

(** *** Async functions: state and exceptions *)

Definition M (A : Type) : Type := World -> (A + JsError) * World.

Definition ret {A} (a : A) : M A := fun w => (inl a, w).

Definition throw {A} (e : JsError) : M A := fun w => (inr e, w).

Definition bind {A B} (c : M A) (k : A -> M B) : M B :=
  fun w =>
    match c w with
    | (inl a, w') => k a w'
    | (inr e, w') => (inr e, w')
    end.

(** [try { c } catch (err) { h err }]: the effects of [c] up to the throw
    are kept. *)
Definition try_catch {A} (c : M A) (h : JsError -> M A) : M A :=
  fun w =>
    match c w with
    | (inl a, w') => (inl a, w')
    | (inr e, w') => h e w'
    end.

(** Lifting of a call that either returns or throws without touching the
    world. *)
Definition lift {A} (r : A + JsError) : M A := fun w => (r, w).

Definition record (c : Call) : M unit :=
  fun w => (inl tt, set_calls (calls w ++ [c]) w).

Declare Scope js_scope.
Delimit Scope js_scope with js.
Notation "x <- c ;; k" := (bind c (fun x => k))
  (at level 100, c at next level, right associativity) : js_scope.
Notation "c ;; k" := (bind c (fun _ => k))
  (at level 100, right associativity) : js_scope.
Notation "c >>= k" := (bind c k)
  (at level 50, left associativity) : js_scope.
Local Open Scope js_scope.

Definition logging_error (message : string) : M unit :=
  fun w => (inl tt, set_log (log w ++ [LogError message]) w).

Definition logging_info (message : string) : M unit :=
  fun w => (inl tt, set_log (log w ++ [LogInfo message]) w).

(** The decimal text of an integer. *)
Definition string_of_Z (z : Z) : string := NilZero.string_of_int (Z.to_int z).

(** [ToInt32], the coercion of [statusCode |= 0]. *)
Definition ToInt32 (z : Z) : Z := ((z + 2 ^ 31) mod 2 ^ 32 - 2 ^ 31)%Z.

(** Thrown by [res.writeHead] for a status code it does not accept. *)
Definition RangeError (message : string) : JsError :=
  mkError "RangeError" message None.

(** [res.writeHead(statusCode)] followed by [res.end()], of Node's
    [http.ServerResponse]: the status code is coerced to a 32-bit integer and
    must lie between 100 and 999, otherwise [writeHead] throws and nothing is
    sent.  The result is the status the response goes out with. *)
Definition res_writeHead (statusCode : Z) : M Z :=
  let code := ToInt32 statusCode in
  if (code <? 100)%Z || (999 <? code)%Z then
    throw (RangeError ("Invalid status code: " ++ string_of_Z statusCode))
  else ret code.

Arguments res_writeHead : simpl never.

Definition gets {A} (f : World -> A) : M A := fun w => (inl (f w), w).

Definition modify (f : World -> World) : M unit := fun w => (inl tt, f w).

(** *** The member repository ([users]) and the BREAD service *)

Definition find_by_email (email : string) (ms : list Member) : option Member :=
  find (fun m => String.eqb (m_email m) email) ms.

Definition find_by_id (id : nat) (ms : list Member) : option Member :=
  find (fun m => Nat.eqb (m_id m) id) ms.

Definition fresh_id (ms : list Member) : nat :=
  S (fold_right Nat.max 0 (map m_id ms)).

(** The email [email] belongs to a member other than [id]. *)
Definition email_taken_by_other (email : string) (id : nat) (ms : list Member) : bool :=
  existsb (fun m => String.eqb (m_email m) email && negb (Nat.eqb (m_id m) id)) ms.

(** The attributes of [data] written over the stored member [m]. *)
Definition apply_update (data m : Member) : Member :=
  mkMember (m_id m) (m_email data) (m_name data) (m_labels data) (m_geolocation data).

(** Modelled from the spec: [users.get({email})] of the member repository
    ([./repositories/member], not among the sources): the member with that
    email, or [null]. *)
Definition users_get (email : string) : M (option Member) :=
  record (CallUsersGet email) ;;
  gets (fun w => find_by_email email (members w)).

(** Modelled from the spec: [users.create(attrs)] of the member repository:
    fails with [Conflict] if the email is already present, otherwise stores
    a new member under a fresh id. *)
Definition users_create (name email : string) (labels : list string) : M Member :=
  record (CallUsersCreate name email labels) ;;
  ms <- gets members ;;
  match find_by_email email ms with
  | Some _ => throw (Conflict "Member already exists")
  | None =>
      let m := mkMember (fresh_id ms) email name labels None in
      modify (set_members (ms ++ [m])) ;;
      ret m
  end.

(** Modelled from the spec: [users.update(attrs, {id})] of the member
    repository: updating the email re-validates uniqueness and fails with
    [Conflict] when the email belongs to a different member; an update of a
    member that does not exist is [NotFound]. *)
Definition users_update (data : Member) (id : nat) : M Member :=
  record (CallUsersUpdate data id) ;;
  ms <- gets members ;;
  if email_taken_by_other (m_email data) id ms then
    throw (Conflict "Member already exists")
  else
    match find_by_id id ms with
    | None => throw (NotFoundError "Member not found")
    | Some m =>
        modify (set_members
                  (map (fun x => if Nat.eqb (m_id x) id then apply_update data x else x) ms)) ;;
        ret (apply_update data m)
    end.

(** Modelled from the spec: [memberBREADService.read({email})]
    ([./services/member-bread], not among the sources): the identity
    projection of the member with that email, or [null]. *)
Definition memberBREADService_read (email : string) : M (option Member) :=
  record (CallRead email) ;;
  gets (fun w => find_by_email email (members w)).

(** Modelled from the spec: [MemberLoginEvent.add], a pure append to the
    login events (the model is injected, not among the sources). *)
Definition MemberLoginEvent_add (id : nat) : M unit :=
  record (CallLoginEventAdd id) ;;
  modify (fun w => set_login_events (login_events w ++ [mkLoginEvent id]) w).

(** Modelled from the spec: [StripeCustomerSubscription.findOne({status})]
    (the model is injected): the first subscription with that status, or
    [null]. *)
Definition StripeCustomerSubscription_findOne (status : string) : M (option Subscription) :=
  record (CallFindOneSubscription status) ;;
  gets (fun w => find (fun s => String.eqb (sub_status s) status) (subscriptions w)).

(** [magicLinkService.sendMagicLink] of the magic-link package: the link is
    handed to the mail transport. *)
Definition magicLinkService_sendMagicLink (link : MagicLink) : M unit :=
  record (CallSendMagicLink link) ;;
  modify (fun w => set_outbox (outbox w ++ [link]) w).

(** [toJSON()] of a member model. *)
Definition toJSON (m : Member) : Member := m.

Definition set_email (email : string) (m : Member) : Member :=
  mkMember (m_id m) email (m_name m) (m_labels m) (m_geolocation m).

Definition set_geolocation (g : string) (m : Member) : Member :=
  mkMember (m_id m) (m_email m) (m_name m) (m_labels m) (Some g).

(** [JSON.stringify].  A character of a string is written as itself unless
    it is the double quote or the backslash (written behind a backslash), one
    of backspace, tab, line feed, form feed and carriage return (written as
    backslash and [b], [t], [n], [f], [r]), or another control character below
    the space (written as backslash, [u], [00] and its two lowercase
    hexadecimal digits). *)
Definition hex_digit (n : nat) : ascii :=
  match n with
  | 0 => "0" | 1 => "1" | 2 => "2" | 3 => "3" | 4 => "4"
  | 5 => "5" | 6 => "6" | 7 => "7" | 8 => "8" | 9 => "9"
  | 10 => "a" | 11 => "b" | 12 => "c" | 13 => "d" | 14 => "e"
  | _ => "f"
  end%char.

Definition backslash : ascii := ascii_of_nat 92.

Definition escape_char (c : ascii) : string :=
  let n := nat_of_ascii c in
  if Nat.eqb n 8 then String backslash "b"
  else if Nat.eqb n 9 then String backslash "t"
  else if Nat.eqb n 10 then String backslash "n"
  else if Nat.eqb n 12 then String backslash "f"
  else if Nat.eqb n 13 then String backslash "r"
  else if Nat.eqb n 34 then String backslash dq
  else if Nat.eqb n 92 then String backslash (String backslash EmptyString)
  else if Nat.ltb n 32 then
    String backslash
      ("u00" ++ String (hex_digit (n / 16)) (String (hex_digit (n mod 16)) EmptyString))
  else String c EmptyString.

Fixpoint escape (s : string) : string :=
  match s with
  | EmptyString => EmptyString
  | String c rest => escape_char c ++ escape rest
  end.

(** [QuoteJSONString]. *)
Definition QuoteJSONString (s : string) : string := dq ++ escape s ++ dq.

Fixpoint stringify_json (j : Json) : string :=
  match j with
  | JsonNull => "null"
  | JsonBoolean b => if b then "true" else "false"
  | JsonNumber text => text
  | JsonString s => QuoteJSONString s
  | JsonArray items => "[" ++ String.concat "," (map stringify_json items) ++ "]"
  | JsonObject fields =>
      "{" ++ String.concat ","
               (map (fun kv => match kv with
                               | (key, value) =>
                                   QuoteJSONString key ++ ":" ++ stringify_json value
                               end) fields)
          ++ "}"
  end.

(** [JSON.stringify(undefined)] is [undefined]. *)
Definition JSON_stringify (v : GeoValue) : option string :=
  match v with
  | GeoUndefined => None
  | GeoJson body => Some (stringify_json body)
  end.

(** *** Arguments *)

Record Options : Type := mkOptions {
  forceEmailType : option bool
}.

(** [!options.forceEmailType] is false exactly when the property is [true]. *)
Definition truthy_flag (o : option bool) : bool :=
  match o with
  | Some b => b
  | None => false
  end.

(** The destructured argument of [sendEmailWithMagicLink]; [None] is an
    absent ([undefined]) property. *)
Record SendArgs : Type := mkSendArgs {
  email : string;
  requestedType : string;
  tokenData : option TokenData;
  options : option Options;
  requestSrc : option string
}.

(** [Object.assign({email}, tokenData)]. *)
Definition Object_assign_email (email : string) (tokenData : option TokenData) : TokenData :=
  match tokenData with
  | None => mkTokenData (Some email) None None None
  | Some td =>
      mkTokenData
        (match td_email td with Some e => Some e | None => Some email end)
        (td_labels td) (td_name td) (td_oldEmail td)
  end.

Definition default {A} (d : A) (o : option A) : A :=
  match o with
  | Some a => a
  | None => d
  end.

(** An inbound webhook request: its JSON payload, if it has one, and its
    [stripe-signature] header. *)
Record Request : Type := mkRequest {
  req_body : option string;
  req_stripe_signature : option string
}.

(** [body.raw({type: 'application/json'})], which runs in front of the
    handler and sets [req.body]. *)
Definition body_raw (req : Request) : RawBody :=
  match req_body req with
  | Some payload => RawBuffer payload
  | None => RawEmptyObject
  end.

(** A Buffer and the empty object are both objects: [!req.body] is false. *)
Definition truthy_body (body : RawBody) : bool :=
  match body with
  | RawBuffer _ => true
  | RawEmptyObject => true
  end.

(** [err.statusCode || 500]. *)
Definition statusCode_or_500 (err : JsError) : Z :=
  match err_statusCode err with
  | Some 0%Z => 500%Z
  | Some code => code
  | None => 500%Z
  end.

(** *** The closures of [MembersAPI] *)

Section Closures.

(** [magicLinkService.getDataFromToken]: the decoded token data, or a
    throw for a token that does not verify. *)
Variable getDataFromToken : string -> TokenData + JsError.

(** [geolocationService.getGeolocationFromIP]. *)
Variable getGeolocationFromIP : string -> GeoValue + JsError.

(** [stripeWebhookService.parseWebhook] (signature verification) and
    [stripeWebhookService.handleWebhook]. *)
Variable parseWebhook : RawBody -> string -> WebhookEvent + JsError.
Variable handleWebhook : WebhookEvent -> M unit.

Definition geolocationService_getGeolocationFromIP (ip : string) : M GeoValue :=
  record (CallGetGeolocationFromIP ip) ;;
  lift (getGeolocationFromIP ip).

Definition stripeWebhookService_parseWebhook (body : RawBody) (signature : string)
  : M WebhookEvent :=
  record (CallParseWebhook body signature) ;;
  lift (parseWebhook body signature).

Definition stripeWebhookService_handleWebhook (event : WebhookEvent) : M unit :=
  record (CallHandleWebhook event) ;;
  handleWebhook event.

Definition hasActiveStripeSubscriptions : M bool :=
  firstActiveSubscription <- StripeCustomerSubscription_findOne "active" ;;
  if truthy_object firstActiveSubscription then ret true else
  firstTrialingSubscription <- StripeCustomerSubscription_findOne "trialing" ;;
  if truthy_object firstTrialingSubscription then ret true else
  firstUnpaidSubscription <- StripeCustomerSubscription_findOne "unpaid" ;;
  if truthy_object firstUnpaidSubscription then ret true else
  firstPastDueSubscription <- StripeCustomerSubscription_findOne "past_due" ;;
  if truthy_object firstPastDueSubscription then ret true else
  ret false.

Definition sendEmailWithMagicLink (args : SendArgs) : M unit :=
  let email := email args in
  let options := default (mkOptions (Some false)) (options args) in
  let requestSrc := default "" (requestSrc args) in
  let type := requestedType args in
  type <- (if negb (truthy_flag (forceEmailType options)) then
             member <- users_get email ;;
             if truthy_object member then ret "signin"
             else if negb (String.eqb type "subscribe") then ret "signup"
             else ret type
           else ret type) ;;
  magicLinkService_sendMagicLink
    (mkMagicLink email type requestSrc (Object_assign_email email (tokenData args))).

Definition getMemberIdentityData (email : string) : M (option Member) :=
  memberBREADService_read email.

Definition getMemberDataFromMagicLinkToken (token : string) : M (option Member) :=
  data <- lift (getDataFromToken token) ;;
  let labels := default [] (td_labels data) in
  let name := default "" (td_name data) in
  let oldEmail := as_truthy (td_oldEmail data) in
  match as_truthy (td_email data) with
  | None => ret None
  | Some email =>
      member <- match oldEmail with
                | Some oldEmail => getMemberIdentityData oldEmail
                | None => getMemberIdentityData email
                end ;;
      match member with
      | Some member =>
          MemberLoginEvent_add (m_id member) ;;
          match oldEmail with
          | Some _ =>
              let member := match oldEmail with
                            | Some _ => set_email email member
                            | None => member
                            end in
              users_update member (m_id member) ;;
              getMemberIdentityData email
          | None => ret (Some member)
          end
      | None =>
          newMember <- users_create name email labels ;;
          MemberLoginEvent_add (m_id newMember) ;;
          getMemberIdentityData email
      end
  end.

Definition setMemberGeolocationFromIp (email ip : string) : M (option Member) :=
  if negb (truthy_string email) || negb (truthy_string ip) then
    throw (IncorrectUsageError
             "setMemberGeolocationFromIp() expects email and ip arguments to be present")
  else
    model <- users_get email ;;
    member <- match model with
              | None => throw (TypeError "Cannot read properties of null (reading 'toJSON')")
              | Some model => ret (Some (toJSON model))
              end ;;
    match member with
    | None =>
        throw (NotFoundError ("Member with email address " ++ email ++ " does not exist"))
    | Some member =>
        located <- geolocationService_getGeolocationFromIP ip ;;
        let geolocation := JSON_stringify located in
        match as_truthy geolocation with
        | Some geolocation =>
            users_update (set_geolocation geolocation member) (m_id member) ;;
            ret tt
        | None => ret tt
        end ;;
        getMemberIdentityData email
    end.

(** The [handleStripeWebhook] middleware, behind [body.raw]; the result is
    the status the response goes out with, a throw when [res.writeHead]
    refuses the status. *)
Definition handleStripeWebhook (req : Request) : M Z :=
  let body := body_raw req in
  configured <- gets stripe_configured ;;
  if negb configured then
    logging_error "Stripe not configured, not handling webhook" ;;
    res_writeHead 400%Z
  else
    match truthy_body body, as_truthy (req_stripe_signature req) with
    | true, Some signature =>
        try_catch
          (event <- stripeWebhookService_parseWebhook body signature ;;
           ret (inl event))
          (fun err =>
             logging_error (err_message err) ;;
             status <- res_writeHead 401%Z ;;
             ret (inr status))
        >>= fun parsed =>
        match parsed with
        | inr status => ret status
        | inl event =>
            logging_info ("Handling webhook " ++ ev_type event) ;;
            try_catch
              (stripeWebhookService_handleWebhook event ;;
               res_writeHead 200%Z)
              (fun err =>
                 logging_error ("Error handling webhook " ++ ev_type event) ;;
                 res_writeHead (statusCode_or_500 err))
        end
    | _, _ => res_writeHead 400%Z
    end.

(** [tokenService.encodeIdentityToken({sub})] of [./services/token] (not
    among the sources): the signed token for the subject, or a throw. *)
Variable encodeIdentityToken : string -> string + JsError.

Definition getMemberIdentityToken (email : string) : M (option string) :=
  member <- getMemberIdentityData email ;;
  match member with
  | None => ret None
  | Some member =>
      token <- lift (encodeIdentityToken (m_email member)) ;;
      ret (Some token)
  end.

(** The [emailService.sendEmailWithMagicLink] handed to the BREAD service. *)
Definition emailService_sendEmailWithMagicLink (email requestedType : string) : M unit :=
  sendEmailWithMagicLink
    (mkSendArgs email requestedType None (Some (mkOptions (Some true))) None).

(** The [sendSignupEmail] handed to the Stripe webhook service. *)
Definition sendSignupEmail (email : string) : M unit :=
  let requestedType := "signup-paid" in
  sendEmailWithMagicLink
    (mkSendArgs email requestedType (Some emptyTokenData)
                (Some (mkOptions (Some true))) None).

End Closures.

(** The members after an accepted [users.update(data, {id})]. *)
Definition updated (data : Member) (id : nat) (ms : list Member) : list Member :=
  map (fun x => if Nat.eqb (m_id x) id then apply_update data x else x) ms.

(** A member without its geolocation. *)
Definition forget_geolocation (m : Member) : Member :=
  mkMember (m_id m) (m_email m) (m_name m) (m_labels m) None.

(** Ids and emails identify members: no two stored members share either. *)
Definition unique_members (ms : list Member) : Prop :=
  NoDup (map m_id ms) /\ NoDup (map m_email ms).

(** [status] is one of the four statuses [hasActiveStripeSubscriptions]
    queries for. *)
Definition queried_status (status : string) : bool :=
  String.eqb status "active" || String.eqb status "trialing"
  || String.eqb status "unpaid" || String.eqb status "past_due".

End MembersAPI.

(** ** Vocabulary of the specification *)

Module Spec.
Import MembersAPI.

(** The statuses that count as an active paid relationship. *)
Definition active_like_statuses : list string :=
  ["active"; "trialing"; "past_due"; "unpaid"].

(** "A member with that email exists." *)
Definition member_exists (email : string) (w : World) : bool :=
  truthy_object (find_by_email email (members w)).

(** "The force option is set." *)
Definition force_option_set (args : SendArgs) : bool :=
  match options args with
  | Some o => truthy_flag (forceEmailType o)
  | None => false
  end.

(** The effective-intent table of the specification: the requested intent
    when forced; otherwise [signin] for an existing member, [subscribe] when
    that was requested, and [signup] in every other case. *)
Definition effective_intent (forced member_exists : bool) (requested : string) : string :=
  if forced then requested
  else if member_exists then "signin"
  else if String.eqb requested "subscribe" then "subscribe"
  else "signup".

(** "After the call the member's email equals [B] and the returned identity
    is the one looked up under [B]": the stored member with the id of [m]
    has email [B], and the call returned the lookup by [B]. *)
Definition email_committed (B : string) (m : Member)
    (r : (option Member + JsError) * World) : Prop :=
  (exists m', find_by_id (m_id m) (members (snd r)) = Some m' /\ m_email m' = B) /\
  fst r = inl (find_by_email B (members (snd r))).

(** A status of the 5xx class. *)
Definition is_5xx (status : Z) : Prop := (500 <= status < 600)%Z.

End Spec.

(** ** Concrete worlds and collaborators *)

Module Samples.
Import MembersAPI.

Definition alice : Member := mkMember 1 "alice@example.com" "Alice" ["vip"] None.
Definition bob : Member := mkMember 2 "bob@example.com" "Bob" [] (Some "{}").

Definition world0 : World :=
  mkWorld [alice; bob] [mkLoginEvent 1]
          [mkSubscription "sub_1" "canceled"; mkSubscription "sub_2" "past_due"]
          [] true [] [].

(** Tokens are named after what they decode to. *)
Definition getDataFromToken (token : string) : TokenData + JsError :=
  if String.eqb token "alice-to-carol" then
    inl (mkTokenData (Some "carol@example.com") None None (Some "alice@example.com"))
  else if String.eqb token "alice-to-bob" then
    inl (mkTokenData (Some "bob@example.com") None None (Some "alice@example.com"))
  else if String.eqb token "signin-bob" then
    inl (mkTokenData (Some "bob@example.com") None None None)
  else if String.eqb token "signup-dave" then
    inl (mkTokenData (Some "dave@example.com") (Some ["news"]) (Some "Dave") None)
  else if String.eqb token "signup-erin" then
    inl (mkTokenData (Some "erin@example.com") None None None)
  else if String.eqb token "no-email" then
    inl (mkTokenData None (Some ["news"]) (Some "Nobody") (Some "alice@example.com"))
  else inr (mkError "IncorrectUsageError" "Invalid token" (Some 400%Z)).

Definition geo_timeout : JsError := mkError "TimeoutError" "Timeout awaiting request" None.

(** A lookup service that times out on one address, knows nothing about
    another and answers [null] for a third. *)
Definition getGeolocationFromIP (ip : string) : GeoValue + JsError :=
  if String.eqb ip "203.0.113.7" then inr geo_timeout
  else if String.eqb ip "not-an-ip" then inl GeoUndefined
  else if String.eqb ip "192.0.2.1" then inl GeoNull
  else if String.eqb ip "198.51.100.9" then
    inl (GeoObject [("city", JsonString ("Saint " ++ dq ++ "Q" ++ dq));
                    ("accuracy", JsonNumber "5")])
  else inl (GeoObject [("country", JsonString "Iceland")]).

Definition bad_signature : JsError :=
  mkError "StripeSignatureVerificationError" "No signatures found matching the expected signature" None.

Definition parseWebhook (body : RawBody) (signature : string) : WebhookEvent + JsError :=
  match body with
  | RawBuffer payload =>
      if String.eqb signature "t=1,v1=good" then inl (mkWebhookEvent "evt_1" payload)
      else inr bad_signature
  | RawEmptyObject => inr bad_signature
  end.

Definition upstream_error : JsError := mkError "HTTPError" "upstream" (Some 1000%Z).

(** A handler that fails with [NotFound] on one event type, with a plain
    error on another, with an error carrying the status 1000 on a third, and
    otherwise records a subscription. *)
Definition handleWebhook (event : WebhookEvent) : M unit :=
  if String.eqb (ev_type event) "customer.deleted" then
    throw (NotFoundError "Customer not found")
  else if String.eqb (ev_type event) "invoice.paid" then
    throw (mkError "Error" "write failed" None)
  else if String.eqb (ev_type event) "charge.failed" then
    throw upstream_error
  else
    modify (fun w => mkWorld (members w) (login_events w)
                             (subscriptions w ++ [mkSubscription (ev_id event) "active"])
                             (outbox w) (stripe_configured w) (log w) (calls w)).

(** The member created for a token that carries only erin's email. *)
Definition erin : Member := mkMember 3 "erin@example.com" "" [] None.

Definition bad_request : Request :=
  mkRequest (Some "customer.deleted") (Some "t=1,v1=bad").

Definition deleted_request : Request :=
  mkRequest (Some "customer.deleted") (Some "t=1,v1=good").

Definition paid_request : Request :=
  mkRequest (Some "invoice.paid") (Some "t=1,v1=good").

(** [world0] as [handleWebhook] finds it for the verified event [event]. *)
Definition world_handling (body : string) (event : WebhookEvent) : World :=
  set_calls [CallParseWebhook (RawBuffer body) "t=1,v1=good"; CallHandleWebhook event]
    (set_log [LogInfo ("Handling webhook " ++ ev_type event)] world0).

Definition created_request : Request :=
  mkRequest (Some "customer.subscription.created") (Some "t=1,v1=good").

Definition failed_request : Request :=
  mkRequest (Some "charge.failed") (Some "t=1,v1=good").

(** A request without a payload, and one without a signature header. *)
Definition bodyless_request : Request := mkRequest None (Some "t=1,v1=good").

Definition unsigned_request : Request := mkRequest (Some "invoice.paid") None.


(** [world0] with its subscriptions in another order and one more. *)
Definition world_more_subscriptions : World :=
  mkWorld [alice; bob] [mkLoginEvent 1]
          [mkSubscription "sub_3" "incomplete"; mkSubscription "sub_2" "past_due";
           mkSubscription "sub_1" "canceled"]
          [] true [] [].

Definition three_months : spec_float := S754_finite false 3 0.

Definition erin_subscribe : SendArgs :=
  mkSendArgs "erin@example.com" "subscribe" None None None.

End Samples.

(** ** OfferDuration.create *)

Section OfferDurationFacts.
Import OfferDuration.

Lemma create_non_string (type months : JsValue) :
  (forall s, type <> JsString s) ->
  create type months = inr (InvalidOfferDuration msg_not_string).
Proof.
  intros Hns. destruct type as [| |b|n|s|r]; try reflexivity.
  - destruct b; reflexivity.
  - destruct n as [sg|sg| |sg m e]; reflexivity.
  - exfalso. apply (Hns s). reflexivity.
Qed.

Lemma create_basic (ty : string) (months : JsValue) :
  ty = "once" \/ ty = "forever" ->
  create (JsString ty) months = inl (mk ty None).
Proof.
  intros [-> | ->]; reflexivity.
Qed.

Lemma create_repeating (months : JsValue) :
  create (JsString "repeating") months =
    match months with
    | JsNumber n =>
        if float_isInteger n then inl (mk "repeating" (Some n))
        else inr (InvalidOfferDuration msg_not_integer)
    | _ => inr (InvalidOfferDuration msg_no_months)
    end.
Proof.
  destruct months as [| |b|n|s|r]; try reflexivity.
  unfold create. simpl. destruct (float_isInteger n); reflexivity.
Qed.

Lemma create_other_string (s : string) (months : JsValue) :
  s <> "once" -> s <> "repeating" -> s <> "forever" ->
  throws (create (JsString s) months).
Proof.
  intros H1 H2 H3. unfold create, throws. simpl.
  destruct s as [|c s'].
  - simpl. eexists. reflexivity.
  - cbn [truthy_string negb orb].
    apply String.eqb_neq in H1, H2, H3. rewrite H1, H2, H3. simpl.
    eexists. reflexivity.
Qed.

(** C10: [OfferDuration.create] throws [InvalidOfferDuration] if and only
    if [type] is not one of the strings 'once', 'repeating', 'forever', or
    [type] is 'repeating' and [months] is not an integer number; otherwise
    it returns a value carrying the given type, and carrying [months]
    exactly when the type is 'repeating'. *)
Theorem create_throws_iff_invalid (type months : JsValue) :
  (throws (create type months) <->
     ~ valid_type type \/ (type = JsString "repeating" /\ ~ integer_number months))
  /\ (throws (create type months) \/
      exists ty, type = JsString ty /\
        ((ty <> "repeating" /\ create type months = inl (mk ty None)) \/
         (ty = "repeating" /\
          exists n, months = JsNumber n /\
                    create type months = inl (mk ty (Some n))))).
Proof.
  destruct type as [| |b|n|s|r].
  1-4,6:
    (split;
     [ split;
       [ intros _; left; intros [H | [H | H]]; discriminate H
       | intros _; rewrite create_non_string by (intros s' H'; discriminate H');
         eexists; reflexivity ]
     | left; rewrite create_non_string by (intros s' H'; discriminate H');
       eexists; reflexivity ]).
  destruct (String.eqb_spec s "once") as [-> | Ho];
    [| destruct (String.eqb_spec s "forever") as [-> | Hf];
       [| destruct (String.eqb_spec s "repeating") as [-> | Hr] ] ].
  - (* once *)
    split.
    + split.
      * intros [msg H]. discriminate H.
      * intros [H | [H _]]; [exfalso; apply H; left; reflexivity | discriminate H].
    + right. exists "once". split; [reflexivity|].
      left. split; [discriminate | reflexivity].
  - (* forever *)
    split.
    + split.
      * intros [msg H]. discriminate H.
      * intros [H | [H _]];
          [exfalso; apply H; right; right; reflexivity | discriminate H].
    + right. exists "forever". split; [reflexivity|].
      left. split; [discriminate | reflexivity].
  - (* repeating *)
    rewrite create_repeating.
    destruct months as [| |b|n|s|r];
      try (split;
           [ split;
             [ intros _; right; split; [reflexivity|];
               intros [n' [H' _]]; discriminate H'
             | intros _; eexists; reflexivity ]
           | left; eexists; reflexivity ]).
    destruct (float_isInteger n) eqn:Hint.
    + split.
      * split.
        -- intros [msg H]. discriminate H.
        -- intros [H | [_ H]].
           ++ exfalso. apply H. right. left. reflexivity.
           ++ exfalso. apply H. exists n. split; [reflexivity | exact Hint].
      * right. exists "repeating". split; [reflexivity|].
        right. split; [reflexivity|]. exists n. split; reflexivity.
    + split.
      * split.
        -- intros _. right. split; [reflexivity|].
           intros [n' [H' Hn']]. injection H' as <-. congruence.
        -- intros _. eexists. reflexivity.
      * left. eexists. reflexivity.
  - (* any other string *)
    assert (Ht : throws (create (JsString s) months))
      by (apply create_other_string; assumption).
    split.
    + split.
      * intros _. left. intros [H | [H | H]]; injection H as ->; congruence.
      * intros _. exact Ht.
    + left. exact Ht.
Qed.

Lemma float_isInteger_finite (sg : bool) (m : positive) (e : Z) :
  float_isInteger (S754_finite sg m e) = true <->
  (0 <= e)%Z \/ exists z : Z, Z.pos m = (z * 2 ^ (- e))%Z.
Proof.
  unfold float_isInteger. destruct (Z.leb_spec 0 e) as [He | He].
  - split; [intros _; left; exact He | reflexivity].
  - assert (Hp : (0 < 2 ^ (- e))%Z) by (apply Z.pow_pos_nonneg; lia).
    rewrite Z.eqb_eq. split.
    + intros Hm. right. exists (Z.pos m / 2 ^ (- e))%Z.
      pose proof (Z.div_mod (Z.pos m) (2 ^ (- e))%Z) as Hd. nia.
    + intros [Hc | [z Hz]]; [lia|].
      rewrite Hz. apply Z.mod_mul. lia.
Qed.

Example isInteger_three : float_isInteger (S754_finite false 3 0) = true.
Proof. reflexivity. Qed.

Example isInteger_six_halves : float_isInteger (S754_finite false 6 (-1)) = true.
Proof. reflexivity. Qed.

Example isInteger_three_halves : float_isInteger (S754_finite false 3 (-1)) = false.
Proof. reflexivity. Qed.

End OfferDurationFacts.

(** ** The closures of MembersAPI *)

Section MembersFacts.
Import MembersAPI Spec.

Variable getDataFromToken : string -> TokenData + JsError.
Variable getGeolocationFromIP : string -> GeoValue + JsError.
Variable parseWebhook : RawBody -> string -> WebhookEvent + JsError.
Variable handleWebhook : WebhookEvent -> M unit.

(** Unfolds the monad and the modelled collaborators. *)
Ltac run :=
  unfold bind, ret, throw, lift, gets, modify, record, try_catch,
    logging_error, logging_info; simpl.

Lemma findOne_some (status : string) (subs : list Subscription) (s : Subscription) :
  find (fun x => String.eqb (sub_status x) status) subs = Some s ->
  In s subs /\ sub_status s = status.
Proof.
  intros H. apply find_some in H. destruct H as [Hin Heq].
  apply String.eqb_eq in Heq. split; assumption.
Qed.

Lemma findOne_none (status : string) (subs : list Subscription) :
  find (fun x => String.eqb (sub_status x) status) subs = None ->
  forall s, In s subs -> sub_status s <> status.
Proof.
  intros H s Hin. apply String.eqb_neq. exact (find_none _ _ H s Hin).
Qed.

(** C4: [hasActiveStripeSubscriptions] returns, and it returns true if and
    only if at least one subscription has a status among active, trialing,
    past_due and unpaid (so false when every status is outside that set). *)
Theorem hasActiveStripeSubscriptions_iff_active_like (w : World) :
  exists b : bool,
    fst (hasActiveStripeSubscriptions w) = inl b /\
    (b = true <->
     exists s, In s (subscriptions w) /\ In (sub_status s) active_like_statuses).
Proof.
  unfold hasActiveStripeSubscriptions, StripeCustomerSubscription_findOne,
    active_like_statuses.
  run.
  destruct (find _ (subscriptions w)) as [s1|] eqn:H1; simpl.
  { exists true. split; [reflexivity|]. split; [|reflexivity]. intros _.
    apply findOne_some in H1. destruct H1 as [Hin Hs].
    exists s1. split; [exact Hin|]. rewrite Hs. simpl. tauto. }
  destruct (find _ (subscriptions w)) as [s2|] eqn:H2 in |- *; simpl.
  { exists true. split; [reflexivity|]. split; [|reflexivity]. intros _.
    apply findOne_some in H2. destruct H2 as [Hin Hs].
    exists s2. split; [exact Hin|]. rewrite Hs. simpl. tauto. }
  destruct (find _ (subscriptions w)) as [s3|] eqn:H3 in |- *; simpl.
  { exists true. split; [reflexivity|]. split; [|reflexivity]. intros _.
    apply findOne_some in H3. destruct H3 as [Hin Hs].
    exists s3. split; [exact Hin|]. rewrite Hs. simpl. tauto. }
  destruct (find _ (subscriptions w)) as [s4|] eqn:H4 in |- *; simpl.
  { exists true. split; [reflexivity|]. split; [|reflexivity]. intros _.
    apply findOne_some in H4. destruct H4 as [Hin Hs].
    exists s4. split; [exact Hin|]. rewrite Hs. simpl. tauto. }
  exists false. split; [reflexivity|]. split; [discriminate|].
  intros [s [Hin Hs]]. exfalso.
  pose proof (findOne_none _ _ H1 s Hin).
  pose proof (findOne_none _ _ H2 s Hin).
  pose proof (findOne_none _ _ H3 s Hin).
  pose proof (findOne_none _ _ H4 s Hin).
  simpl in Hs. intuition congruence.
Qed.

(** C1: without the force option the magic link sent by
    [sendEmailWithMagicLink] carries 'signin' if a member with that email
    exists, otherwise the requested intent if it was 'subscribe', otherwise
    'signup'; with the force option it carries the requested intent
    unchanged.  Exactly one link is handed over, and the call returns. *)
Theorem sendEmailWithMagicLink_effective_intent (args : SendArgs) (w : World) :
  let r := sendEmailWithMagicLink args w in
  let type := effective_intent (force_option_set args)
                               (member_exists (email args) w)
                               (requestedType args) in
  fst r = inl tt /\
  outbox (snd r) =
    (outbox w ++ [mkMagicLink (email args) type
                              (default "" (requestSrc args))
                              (Object_assign_email (email args) (tokenData args))])%list /\
  members (snd r) = members w.
Proof.
  destruct args as [em rt td opts src].
  unfold sendEmailWithMagicLink, effective_intent, force_option_set,
    member_exists, users_get, magicLinkService_sendMagicLink.
  cbn [email requestedType tokenData options requestSrc].
  destruct opts as [[[[|]|]]|]; run.
  - repeat split.
  - destruct (find_by_email em (members w)); simpl.
    + repeat split.
    + destruct (String.eqb_spec rt "subscribe") as [-> | Hne]; simpl; repeat split.
  - destruct (find_by_email em (members w)); simpl.
    + repeat split.
    + destruct (String.eqb_spec rt "subscribe") as [-> | Hne]; simpl; repeat split.
  - destruct (find_by_email em (members w)); simpl.
    + repeat split.
    + destruct (String.eqb_spec rt "subscribe") as [-> | Hne]; simpl; repeat split.
Qed.

(** The case table of the effective intent, row by row. *)
Lemma effective_intent_rows (requested : string) :
  effective_intent true true requested = requested /\
  effective_intent true false requested = requested /\
  effective_intent false true requested = "signin" /\
  effective_intent false false "subscribe" = "subscribe" /\
  (requested <> "subscribe" -> effective_intent false false requested = "signup").
Proof.
  repeat split. intros Hne. unfold effective_intent.
  apply String.eqb_neq in Hne. rewrite Hne. reflexivity.
Qed.

Lemma as_truthy_none (o : option string) :
  as_truthy o = None <-> truthy_opt_string o = false.
Proof.
  destruct o as [[|c s]|]; simpl; split; intros H; try reflexivity; discriminate H.
Qed.

Lemma as_truthy_some (o : option string) (s : string) :
  as_truthy o = Some s <-> o = Some s /\ truthy_string s = true.
Proof.
  destruct o as [[|c s']|]; simpl; split.
  - discriminate.
  - intros [H H']. injection H as <-. discriminate H'.
  - intros H. injection H as <-. split; reflexivity.
  - intros [H _]. exact H.
  - discriminate.
  - intros [H _]. discriminate H.
Qed.

(** C5: for a token whose decoded data has no (truthy) email,
    [getMemberDataFromMagicLinkToken] returns [null] without throwing, and
    the world is untouched: no lookup, creation, update or event append is
    recorded. *)
Theorem getMemberDataFromMagicLinkToken_no_email
    (token : string) (data : TokenData) (w : World) :
  getDataFromToken token = inl data ->
  truthy_opt_string (td_email data) = false ->
  getMemberDataFromMagicLinkToken getDataFromToken token w = (inl None, w).
Proof.
  intros Hdec Hemail. apply as_truthy_none in Hemail.
  unfold getMemberDataFromMagicLinkToken. run.
  rewrite Hdec, Hemail. reflexivity.
Qed.

Lemma find_by_email_snoc (email : string) (ms : list Member) (x : Member) :
  find_by_email email ms = None ->
  find_by_email email (ms ++ [x]) =
    if String.eqb (m_email x) email then Some x else None.
Proof.
  unfold find_by_email. induction ms as [|m ms IH]; simpl.
  - reflexivity.
  - destruct (String.eqb (m_email m) email); [discriminate | exact IH].
Qed.

Lemma find_by_id_map_update (data : Member) (id : nat) (ms : list Member) :
  find_by_id id
    (map (fun x => if Nat.eqb (m_id x) id then apply_update data x else x) ms) =
  option_map (apply_update data) (find_by_id id ms).
Proof.
  unfold find_by_id. induction ms as [|m ms IH]; simpl.
  - reflexivity.
  - destruct (Nat.eqb (m_id m) id) eqn:Hid; simpl.
    + rewrite Hid. reflexivity.
    + rewrite Hid. exact IH.
Qed.

Lemma find_by_email_has_id (email : string) (ms : list Member) (m : Member) :
  find_by_email email ms = Some m ->
  exists x, find_by_id (m_id m) ms = Some x /\ m_id x = m_id m.
Proof.
  intros H. apply find_some in H. destruct H as [Hin _].
  destruct (find_by_id (m_id m) ms) as [x|] eqn:Hx.
  - exists x. split; [reflexivity|].
    apply find_some in Hx. destruct Hx as [_ Hx]. apply Nat.eqb_eq. exact Hx.
  - exfalso. pose proof (find_none _ _ Hx m Hin) as Hn.
    simpl in Hn. rewrite Nat.eqb_refl in Hn. discriminate Hn.
Qed.


(** With an oldEmail in the token the first collaborator call is the lookup
    by the old email, whatever the members are. *)
Lemma email_change_resolves_by_oldEmail
    (token : string) (data : TokenData) (A B : string) (w : World) :
  getDataFromToken token = inl data ->
  as_truthy (td_oldEmail data) = Some A ->
  as_truthy (td_email data) = Some B ->
  exists rest,
    calls (snd (getMemberDataFromMagicLinkToken getDataFromToken token w)) =
      (calls w ++ CallRead A :: rest)%list.
Proof.
  intros Hdec HA HB.
  unfold getMemberDataFromMagicLinkToken, getMemberIdentityData,
    memberBREADService_read, MemberLoginEvent_add, users_create, users_update.
  run. rewrite Hdec, HB, HA. simpl.
  destruct (find_by_email A (members w)) as [m|]; simpl.
  - destruct (email_taken_by_other B (m_id m) (members w)); simpl.
    + eexists. rewrite <- !app_assoc. reflexivity.
    + destruct (find_by_id (m_id m) (members w)); simpl;
        eexists; rewrite <- !app_assoc; reflexivity.
  - destruct (find_by_email B (members w)); simpl;
      eexists; rewrite <- !app_assoc; reflexivity.
Qed.

(** The update of the email-change confirmation is refused when the new
    email belongs to another member: the call throws [Conflict] after the
    login event, and the members are as before. *)
Lemma email_change_conflict
    (token : string) (data : TokenData) (A B : string) (m : Member) (w : World) :
  getDataFromToken token = inl data ->
  as_truthy (td_oldEmail data) = Some A ->
  as_truthy (td_email data) = Some B ->
  find_by_email A (members w) = Some m ->
  email_taken_by_other B (m_id m) (members w) = true ->
  let r := getMemberDataFromMagicLinkToken getDataFromToken token w in
  fst r = inr (Conflict "Member already exists") /\
  members (snd r) = members w /\
  login_events (snd r) = (login_events w ++ [mkLoginEvent (m_id m)])%list.
Proof.
  intros Hdec HA HB Hfind Htaken.
  unfold getMemberDataFromMagicLinkToken, getMemberIdentityData,
    memberBREADService_read, MemberLoginEvent_add, users_update.
  run. rewrite Hdec, HB, HA. simpl. rewrite Hfind. simpl.
  rewrite Htaken. simpl. repeat split.
Qed.

(** C2 (amended): for a token carrying oldEmail=A and email=B,
    [getMemberDataFromMagicLinkToken] resolves the existing member by A, not
    by B; if that member exists and B is not the email of a different
    member, then after the call the member's email equals B and the returned
    identity is the one looked up under B. *)
Theorem getMemberDataFromMagicLinkToken_email_change
    (token : string) (data : TokenData) (A B : string) (w : World) :
  getDataFromToken token = inl data ->
  td_oldEmail data = Some A ->
  truthy_string A = true ->
  td_email data = Some B ->
  truthy_string B = true ->
  let r := getMemberDataFromMagicLinkToken getDataFromToken token w in
  (exists rest, calls (snd r) = (calls w ++ CallRead A :: rest)%list) /\
  (forall m,
      find_by_email A (members w) = Some m ->
      email_taken_by_other B (m_id m) (members w) = false ->
      email_committed B m r /\
      login_events (snd r) = (login_events w ++ [mkLoginEvent (m_id m)])%list /\
      calls (snd r) =
        (calls w ++ [CallRead A; CallLoginEventAdd (m_id m);
                     CallUsersUpdate (set_email B m) (m_id m);
                     CallRead B])%list).
Proof.
  intros Hdec HoA HtA HeB HtB r.
  assert (HA : as_truthy (td_oldEmail data) = Some A)
    by (apply as_truthy_some; split; assumption).
  assert (HB : as_truthy (td_email data) = Some B)
    by (apply as_truthy_some; split; assumption).
  split.
  - exact (email_change_resolves_by_oldEmail token data A B w Hdec HA HB).
  - intros m Hfind Hfree.
    destruct (find_by_email_has_id _ _ _ Hfind) as [x [Hx Hxid]].
    subst r. unfold email_committed.
    unfold getMemberDataFromMagicLinkToken, getMemberIdentityData,
      memberBREADService_read, MemberLoginEvent_add, users_update.
    run. rewrite Hdec, HB, HA. simpl. rewrite Hfind. simpl.
    rewrite Hfree. simpl. rewrite Hx. simpl.
    rewrite <- !app_assoc. simpl.
    repeat split.
    exists (apply_update (set_email B m) x). split; [|reflexivity].
    rewrite (find_by_id_map_update (set_email B m) (m_id m) (members w)).
    rewrite Hx. reflexivity.
Qed.

Lemma ToInt32_small (z : Z) :
  (- 2147483648 <= z < 2147483648)%Z -> ToInt32 z = z.
Proof.
  intros H. unfold ToInt32.
  change (2 ^ 31)%Z with 2147483648%Z. change (2 ^ 32)%Z with 4294967296%Z.
  rewrite Z.mod_small by lia. lia.
Qed.

Lemma res_writeHead_valid (code : Z) (w : World) :
  (100 <= code <= 999)%Z -> res_writeHead code w = (inl code, w).
Proof.
  intros H. unfold res_writeHead. cbv zeta.
  rewrite ToInt32_small by lia.
  destruct (Z.ltb_spec code 100); [lia|].
  destruct (Z.ltb_spec 999 code); [lia|]. reflexivity.
Qed.

Lemma res_writeHead_invalid (code : Z) (w : World) :
  (ToInt32 code < 100 \/ 999 < ToInt32 code)%Z ->
  res_writeHead code w =
    (inr (RangeError ("Invalid status code: " ++ string_of_Z code)), w).
Proof.
  intros H. unfold res_writeHead. cbv zeta.
  destruct (Z.ltb_spec (ToInt32 code) 100); [reflexivity|].
  destruct (Z.ltb_spec 999 (ToInt32 code)); [reflexivity | lia].
Qed.

Lemma truthy_body_true (body : RawBody) : truthy_body body = true.
Proof.
  destruct body; reflexivity.
Qed.

(** The guards in front of the signature verification answer 400 and call
    neither [parseWebhook] nor [handleWebhook]. *)
Lemma handleStripeWebhook_guards (req : Request) (w : World) :
  stripe_configured w = false
    \/ truthy_opt_string (req_stripe_signature req) = false ->
  let r := handleStripeWebhook parseWebhook handleWebhook req w in
  fst r = inl 400%Z /\ calls (snd r) = calls w /\ members (snd r) = members w /\
  login_events (snd r) = login_events w /\ subscriptions (snd r) = subscriptions w.
Proof.
  intros H. unfold handleStripeWebhook. cbv zeta. rewrite truthy_body_true. run.
  destruct (stripe_configured w) eqn:Hc; simpl.
  - destruct H as [H | H]; [discriminate H|].
    apply as_truthy_none in H. rewrite H.
    rewrite ?res_writeHead_valid by lia. repeat split.
  - rewrite ?res_writeHead_valid by lia. repeat split.
Qed.

(** The handler on a request that passes the guards and the verification:
    [handleWebhook] runs on the parsed event, and the response is 200 or the
    status of the error it threw. *)
Lemma handleStripeWebhook_verified_run
    (req : Request) (w : World) (signature : string) (event : WebhookEvent) :
  stripe_configured w = true ->
  req_stripe_signature req = Some signature ->
  truthy_string signature = true ->
  parseWebhook (body_raw req) signature = inl event ->
  handleStripeWebhook parseWebhook handleWebhook req w =
    match handleWebhook event
            (set_calls (calls w ++ [CallParseWebhook (body_raw req) signature;
                                    CallHandleWebhook event])
               (set_log (log w ++ [LogInfo ("Handling webhook " ++ ev_type event)]) w))
    with
    | (inl _, w') => (inl 200%Z, w')
    | (inr err, w') =>
        res_writeHead (statusCode_or_500 err)
          (set_log (log w' ++ [LogError ("Error handling webhook " ++ ev_type event)]) w')
    end.
Proof.
  intros Hc Hsig Ht Hparse.
  assert (Hs : as_truthy (req_stripe_signature req) = Some signature)
    by (apply as_truthy_some; split; assumption).
  unfold handleStripeWebhook, stripeWebhookService_parseWebhook,
    stripeWebhookService_handleWebhook.
  cbv zeta. rewrite truthy_body_true, Hs.
  run. rewrite Hc. simpl. rewrite Hparse. simpl.
  unfold set_log, set_calls. simpl. rewrite <- app_assoc. simpl. rewrite ?Hc.
  destruct (handleWebhook event _) as [[[]|err] w']; simpl.
  - rewrite ?res_writeHead_valid by lia. reflexivity.
  - reflexivity.
Qed.

(** C3: when the signature verification ([parseWebhook]) of a webhook
    request throws, the handler responds 401 and does not process the
    payload: the only collaborator call is the verification itself
    ([handleWebhook] is not invoked), and members, subscriptions, events and
    outbox are as before. *)
Theorem handleStripeWebhook_bad_signature_401
    (req : Request) (w : World) (signature : string) (err : JsError) :
  stripe_configured w = true ->
  req_stripe_signature req = Some signature ->
  truthy_string signature = true ->
  parseWebhook (body_raw req) signature = inr err ->
  let r := handleStripeWebhook parseWebhook handleWebhook req w in
  fst r = inl 401%Z /\
  calls (snd r) = (calls w ++ [CallParseWebhook (body_raw req) signature])%list /\
  members (snd r) = members w /\
  subscriptions (snd r) = subscriptions w /\
  login_events (snd r) = login_events w /\
  outbox (snd r) = outbox w /\
  log (snd r) = (log w ++ [LogError (err_message err)])%list.
Proof.
  intros Hc Hsig Ht Hparse.
  assert (Hs : as_truthy (req_stripe_signature req) = Some signature)
    by (apply as_truthy_some; split; assumption).
  unfold handleStripeWebhook, stripeWebhookService_parseWebhook.
  cbv zeta. rewrite truthy_body_true, Hs.
  run. rewrite Hc. simpl. rewrite Hparse. simpl.
  rewrite ?res_writeHead_valid by lia. simpl. repeat split.
Qed.

(** C9 (amended): when the signature verifies and [handleWebhook] throws,
    the handler responds with the status code carried by the error when that
    is a valid HTTP status code (100 to 999), and with 500 when the error
    carries none (or zero); the effects of the failed processing are kept and
    the error is logged. *)
Theorem handleStripeWebhook_processing_error_status
    (req : Request) (w w' : World) (signature : string)
    (event : WebhookEvent) (err : JsError) :
  stripe_configured w = true ->
  req_stripe_signature req = Some signature ->
  truthy_string signature = true ->
  parseWebhook (body_raw req) signature = inl event ->
  handleWebhook event
    (set_calls (calls w ++ [CallParseWebhook (body_raw req) signature;
                            CallHandleWebhook event])
       (set_log (log w ++ [LogInfo ("Handling webhook " ++ ev_type event)]) w))
    = (inr err, w') ->
  let r := handleStripeWebhook parseWebhook handleWebhook req w in
  (err_statusCode err = None \/ err_statusCode err = Some 0%Z -> fst r = inl 500%Z) /\
  (forall code, err_statusCode err = Some code -> (100 <= code <= 999)%Z ->
                fst r = inl code) /\
  snd r = set_log (log w' ++ [LogError ("Error handling webhook " ++ ev_type event)]) w'.
Proof.
  intros Hc Hsig Ht Hparse Hhandle r. subst r.
  rewrite (handleStripeWebhook_verified_run req w signature event Hc Hsig Ht Hparse).
  rewrite Hhandle. unfold statusCode_or_500.
  split; [|split].
  - intros [H | H]; rewrite H; rewrite res_writeHead_valid by lia; reflexivity.
  - intros code H Hvalid. rewrite H.
    destruct code as [|code|code]; try lia.
    rewrite res_writeHead_valid by lia. reflexivity.
  - unfold res_writeHead. cbv zeta.
    destruct ((_ <? 100)%Z || (999 <? _)%Z); reflexivity.
Qed.

(** The same request when the status of the error is one [res.writeHead]
    refuses: the handler itself throws, and no response goes out. *)
Lemma handleStripeWebhook_processing_error_invalid_status
    (req : Request) (w w' : World) (signature : string)
    (event : WebhookEvent) (err : JsError) :
  stripe_configured w = true ->
  req_stripe_signature req = Some signature ->
  truthy_string signature = true ->
  parseWebhook (body_raw req) signature = inl event ->
  handleWebhook event
    (set_calls (calls w ++ [CallParseWebhook (body_raw req) signature;
                            CallHandleWebhook event])
       (set_log (log w ++ [LogInfo ("Handling webhook " ++ ev_type event)]) w))
    = (inr err, w') ->
  (ToInt32 (statusCode_or_500 err) < 100 \/ 999 < ToInt32 (statusCode_or_500 err))%Z ->
  fst (handleStripeWebhook parseWebhook handleWebhook req w) =
    inr (RangeError ("Invalid status code: " ++ string_of_Z (statusCode_or_500 err))).
Proof.
  intros Hc Hsig Ht Hparse Hhandle Hinvalid.
  rewrite (handleStripeWebhook_verified_run req w signature event Hc Hsig Ht Hparse).
  rewrite Hhandle. rewrite res_writeHead_invalid by exact Hinvalid. reflexivity.
Qed.

(** The same request when the processing succeeds: 200. *)
Lemma handleStripeWebhook_success_200
    (req : Request) (w w' : World) (signature : string) (event : WebhookEvent) :
  stripe_configured w = true ->
  req_stripe_signature req = Some signature ->
  truthy_string signature = true ->
  parseWebhook (body_raw req) signature = inl event ->
  handleWebhook event
    (set_calls (calls w ++ [CallParseWebhook (body_raw req) signature;
                            CallHandleWebhook event])
       (set_log (log w ++ [LogInfo ("Handling webhook " ++ ev_type event)]) w))
    = (inl tt, w') ->
  handleStripeWebhook parseWebhook handleWebhook req w = (inl 200%Z, w').
Proof.
  intros Hc Hsig Ht Hparse Hhandle.
  rewrite (handleStripeWebhook_verified_run req w signature event Hc Hsig Ht Hparse).
  rewrite Hhandle. reflexivity.
Qed.

(** Without a member for the email, [users.get] answers [null] and the
    [toJSON()] call on it throws a [TypeError]; the [NotFoundError] guard
    behind it is not reached. *)
Lemma setMemberGeolocationFromIp_missing_member
    (email ip : string) (w : World) :
  truthy_string email = true ->
  truthy_string ip = true ->
  find_by_email email (members w) = None ->
  setMemberGeolocationFromIp getGeolocationFromIP email ip w =
    (inr (TypeError "Cannot read properties of null (reading 'toJSON')"),
     set_calls (calls w ++ [CallUsersGet email]) w).
Proof.
  intros He Hi Hfind. unfold setMemberGeolocationFromIp, users_get.
  rewrite He, Hi. run. rewrite Hfind. reflexivity.
Qed.

Lemma setMemberGeolocationFromIp_missing_arguments
    (email ip : string) (w : World) :
  truthy_string email = false \/ truthy_string ip = false ->
  setMemberGeolocationFromIp getGeolocationFromIP email ip w =
    (inr (IncorrectUsageError
            "setMemberGeolocationFromIp() expects email and ip arguments to be present"),
     w).
Proof.
  intros H. unfold setMemberGeolocationFromIp.
  destruct H as [H | H]; rewrite H; [| rewrite orb_true_r]; reflexivity.
Qed.

(** A lookup that yields a value whose JSON text is truthy stores that text,
    provided the update is accepted; the text of [null] is such a value. *)
Lemma setMemberGeolocationFromIp_stores_stringified
    (email ip : string) (w : World) (m : Member) (v : GeoValue) (text : string) :
  truthy_string email = true ->
  truthy_string ip = true ->
  find_by_email email (members w) = Some m ->
  getGeolocationFromIP ip = inl v ->
  as_truthy (JSON_stringify v) = Some text ->
  email_taken_by_other (m_email m) (m_id m) (members w) = false ->
  let r := setMemberGeolocationFromIp getGeolocationFromIP email ip w in
  exists m', find_by_id (m_id m) (members (snd r)) = Some m' /\
             m_geolocation m' = Some text.
Proof.
  intros He Hi Hfind Hgeo Htext Hfree.
  destruct (find_by_email_has_id _ _ _ Hfind) as [x [Hx Hxid]].
  unfold setMemberGeolocationFromIp, users_get,
    geolocationService_getGeolocationFromIP, users_update,
    getMemberIdentityData, memberBREADService_read, toJSON.
  rewrite He, Hi. run. rewrite Hfind. simpl. rewrite Hgeo. simpl.
  rewrite Htext. simpl. rewrite Hfree. simpl. rewrite Hx. simpl.
  exists (apply_update (set_geolocation text m) x). split; [|reflexivity].
  rewrite (find_by_id_map_update (set_geolocation text m) (m_id m) (members w)).
  rewrite Hx. reflexivity.
Qed.

(** C7 (amended): for an existing member, a geolocation lookup that yields
    no result ([undefined]) leaves the member's geolocation unchanged (no
    update is issued) and the member's identity data is still returned; a
    lookup that throws makes the whole operation throw that error, with the
    members unchanged. *)
Theorem setMemberGeolocationFromIp_lookup_failure
    (email ip : string) (w : World) (m : Member) :
  truthy_string email = true ->
  truthy_string ip = true ->
  find_by_email email (members w) = Some m ->
  let r := setMemberGeolocationFromIp getGeolocationFromIP email ip w in
  (getGeolocationFromIP ip = inl GeoUndefined ->
     fst r = inl (Some m) /\
     members (snd r) = members w /\
     calls (snd r) =
       (calls w ++ [CallUsersGet email; CallGetGeolocationFromIP ip;
                    CallRead email])%list) /\
  (forall err,
     getGeolocationFromIP ip = inr err ->
     fst r = inr err /\
     members (snd r) = members w /\
     calls (snd r) =
       (calls w ++ [CallUsersGet email; CallGetGeolocationFromIP ip])%list).
Proof.
  intros He Hi Hfind.
  unfold setMemberGeolocationFromIp, users_get,
    geolocationService_getGeolocationFromIP,
    getMemberIdentityData, memberBREADService_read, toJSON.
  rewrite He, Hi. run. rewrite Hfind. simpl.
  split.
  - intros Hgeo. rewrite Hgeo. simpl. rewrite Hfind.
    rewrite <- !app_assoc. simpl. repeat split.
  - intros err Hgeo. rewrite Hgeo. simpl.
    rewrite <- !app_assoc. simpl. repeat split.
Qed.

End MembersFacts.

(** ** The theorems at concrete worlds *)

Section Instances.
Import MembersAPI Spec.

Lemma getMemberDataFromMagicLinkToken_no_email_witness :
  Samples.getDataFromToken "no-email" =
    inl (mkTokenData None (Some ["news"]) (Some "Nobody") (Some "alice@example.com")) /\
  truthy_opt_string (@None string) = false /\
  getMemberDataFromMagicLinkToken Samples.getDataFromToken "no-email" Samples.world0 =
    (inl None, Samples.world0).
Proof.
  split; [reflexivity|]. split; [reflexivity|].
  apply (getMemberDataFromMagicLinkToken_no_email Samples.getDataFromToken "no-email"
           (mkTokenData None (Some ["news"]) (Some "Nobody") (Some "alice@example.com"))
           Samples.world0); reflexivity.
Defined.


Lemma getMemberDataFromMagicLinkToken_email_change_witness :
  let r := getMemberDataFromMagicLinkToken Samples.getDataFromToken "alice-to-carol"
             Samples.world0 in
  Samples.getDataFromToken "alice-to-carol" =
    inl (mkTokenData (Some "carol@example.com") None None (Some "alice@example.com")) /\
  truthy_string "alice@example.com" = true /\
  truthy_string "carol@example.com" = true /\
  find_by_email "alice@example.com" (members Samples.world0) = Some Samples.alice /\
  email_taken_by_other "carol@example.com" 1 (members Samples.world0) = false /\
  email_committed "carol@example.com" Samples.alice r /\
  login_events (snd r) = [mkLoginEvent 1; mkLoginEvent 1] /\
  calls (snd r) =
    [CallRead "alice@example.com"; CallLoginEventAdd 1;
     CallUsersUpdate (set_email "carol@example.com" Samples.alice) 1;
     CallRead "carol@example.com"].
Proof.
  split; [reflexivity|]. split; [reflexivity|]. split; [reflexivity|].
  split; [reflexivity|]. split; [reflexivity|].
  exact (proj2 (getMemberDataFromMagicLinkToken_email_change
                  Samples.getDataFromToken "alice-to-carol"
                  (mkTokenData (Some "carol@example.com") None None
                               (Some "alice@example.com"))
                  "alice@example.com" "carol@example.com" Samples.world0
                  eq_refl eq_refl eq_refl eq_refl eq_refl)
               Samples.alice eq_refl eq_refl).
Defined.

(** C2, as stated, fails when the new email already belongs to another
    member: the token changes alice's email to bob's, the update is refused
    with [Conflict], and alice keeps her email. *)
Lemma email_change_to_taken_email_counterexample :
  let r := getMemberDataFromMagicLinkToken Samples.getDataFromToken "alice-to-bob"
             Samples.world0 in
  Samples.getDataFromToken "alice-to-bob" =
    inl (mkTokenData (Some "bob@example.com") None None (Some "alice@example.com")) /\
  find_by_email "alice@example.com" (members Samples.world0) = Some Samples.alice /\
  fst r = inr (Conflict "Member already exists") /\
  find_by_id (m_id Samples.alice) (members (snd r)) = Some Samples.alice /\
  ~ email_committed "bob@example.com" Samples.alice r.
Proof.
  repeat (split; [reflexivity|]).
  intros [[m' [Hm' Hemail]] _].
  vm_compute in Hm'. injection Hm' as <-. discriminate Hemail.
Qed.

Lemma handleStripeWebhook_bad_signature_401_witness :
  let r := handleStripeWebhook Samples.parseWebhook Samples.handleWebhook
             Samples.bad_request Samples.world0 in
  stripe_configured Samples.world0 = true /\
  truthy_string "t=1,v1=bad" = true /\
  Samples.parseWebhook (body_raw Samples.bad_request) "t=1,v1=bad" =
    inr Samples.bad_signature /\
  fst r = inl 401%Z /\
  calls (snd r) = [CallParseWebhook (RawBuffer "customer.deleted") "t=1,v1=bad"] /\
  members (snd r) = members Samples.world0 /\
  subscriptions (snd r) = subscriptions Samples.world0 /\
  login_events (snd r) = login_events Samples.world0 /\
  outbox (snd r) = outbox Samples.world0 /\
  log (snd r) = [LogError (err_message Samples.bad_signature)].
Proof.
  split; [reflexivity|]. split; [reflexivity|]. split; [reflexivity|].
  exact (handleStripeWebhook_bad_signature_401
           Samples.parseWebhook Samples.handleWebhook
           Samples.bad_request Samples.world0 "t=1,v1=bad"
           Samples.bad_signature eq_refl eq_refl eq_refl eq_refl).
Defined.

Lemma handleStripeWebhook_processing_error_status_witness :
  let event := mkWebhookEvent "evt_1" "invoice.paid" in
  let w' := Samples.world_handling "invoice.paid" event in
  let r := handleStripeWebhook Samples.parseWebhook Samples.handleWebhook
             Samples.paid_request Samples.world0 in
  stripe_configured Samples.world0 = true /\
  truthy_string "t=1,v1=good" = true /\
  Samples.parseWebhook (body_raw Samples.paid_request) "t=1,v1=good" = inl event /\
  Samples.handleWebhook event w' = (inr (mkError "Error" "write failed" None), w') /\
  fst r = inl 500%Z /\
  snd r = set_log (log w' ++ [LogError "Error handling webhook invoice.paid"]) w'.
Proof.
  split; [reflexivity|]. split; [reflexivity|]. split; [reflexivity|].
  split; [reflexivity|].
  pose proof (handleStripeWebhook_processing_error_status
                Samples.parseWebhook Samples.handleWebhook
                Samples.paid_request Samples.world0
                (Samples.world_handling "invoice.paid"
                   (mkWebhookEvent "evt_1" "invoice.paid"))
                "t=1,v1=good" (mkWebhookEvent "evt_1" "invoice.paid")
                (mkError "Error" "write failed" None)
                eq_refl eq_refl eq_refl eq_refl eq_refl) as H.
  exact (conj (proj1 H (or_introl eq_refl)) (proj2 (proj2 H))).
Defined.

(** C9, as stated, fails for a processing error that carries its own
    status code: the signature verifies, [handleWebhook] throws a
    [NotFoundError], and the handler answers 404, which is not of the 5xx
    class. *)
Lemma handleStripeWebhook_processing_error_404_counterexample :
  let event := mkWebhookEvent "evt_1" "customer.deleted" in
  let r := handleStripeWebhook Samples.parseWebhook Samples.handleWebhook
             Samples.deleted_request Samples.world0 in
  Samples.parseWebhook (body_raw Samples.deleted_request) "t=1,v1=good" = inl event /\
  fst (Samples.handleWebhook event (Samples.world_handling "customer.deleted" event)) =
    inr (NotFoundError "Customer not found") /\
  fst r = inl 404%Z /\
  ~ (exists status, fst r = inl status /\ is_5xx status).
Proof.
  repeat (split; [reflexivity|]).
  intros [status [Hst H5]]. vm_compute in Hst. injection Hst as <-.
  unfold is_5xx in H5. lia.
Qed.

Lemma setMemberGeolocationFromIp_lookup_failure_witness :
  let r := setMemberGeolocationFromIp Samples.getGeolocationFromIP
             "alice@example.com" "not-an-ip" Samples.world0 in
  truthy_string "alice@example.com" = true /\
  truthy_string "not-an-ip" = true /\
  find_by_email "alice@example.com" (members Samples.world0) = Some Samples.alice /\
  Samples.getGeolocationFromIP "not-an-ip" = inl GeoUndefined /\
  fst r = inl (Some Samples.alice) /\
  members (snd r) = members Samples.world0 /\
  calls (snd r) =
    [CallUsersGet "alice@example.com"; CallGetGeolocationFromIP "not-an-ip";
     CallRead "alice@example.com"].
Proof.
  split; [reflexivity|]. split; [reflexivity|]. split; [reflexivity|].
  split; [reflexivity|].
  exact (proj1 (setMemberGeolocationFromIp_lookup_failure
                  Samples.getGeolocationFromIP
                  "alice@example.com" "not-an-ip" Samples.world0 Samples.alice
                  eq_refl eq_refl eq_refl)
               eq_refl).
Defined.

(** C7, as stated, fails for a lookup that throws: alice exists, the lookup
    of the address times out, and the whole operation throws the timeout
    instead of returning her identity data. *)
Lemma setMemberGeolocationFromIp_lookup_error_counterexample :
  let r := setMemberGeolocationFromIp Samples.getGeolocationFromIP
             "alice@example.com" "203.0.113.7" Samples.world0 in
  find_by_email "alice@example.com" (members Samples.world0) = Some Samples.alice /\
  Samples.getGeolocationFromIP "203.0.113.7" = inr Samples.geo_timeout /\
  fst r = inr Samples.geo_timeout /\
  ~ (exists identity, fst r = inl identity).
Proof.
  repeat (split; [reflexivity|]).
  intros [identity H]. vm_compute in H. discriminate H.
Qed.

(** A lookup that answers [null] is stored as the text [null]. *)
Lemma setMemberGeolocationFromIp_null_is_stored :
  let r := setMemberGeolocationFromIp Samples.getGeolocationFromIP
             "alice@example.com" "192.0.2.1" Samples.world0 in
  Samples.getGeolocationFromIP "192.0.2.1" = inl GeoNull /\
  m_geolocation Samples.alice = None /\
  fst r = inl (Some (set_geolocation "null" Samples.alice)).
Proof.
  repeat split.
Qed.

(** C8: at a world without a member for the email the operation throws a
    [TypeError] (no status code), not the [NotFoundError] (404) of the guard
    that follows; no member is touched. *)
Theorem setMemberGeolocationFromIp_missing_member_throws_TypeError :
  let r := setMemberGeolocationFromIp Samples.getGeolocationFromIP
             "zed@example.com" "192.0.2.1" Samples.world0 in
  find_by_email "zed@example.com" (members Samples.world0) = None /\
  fst r = inr (TypeError "Cannot read properties of null (reading 'toJSON')") /\
  fst r <> inr (NotFoundError
                  "Member with email address zed@example.com does not exist") /\
  members (snd r) = members Samples.world0.
Proof.
  split; [reflexivity|]. split; [reflexivity|]. split; [|reflexivity].
  intros H. vm_compute in H. discriminate H.
Qed.

End Instances.


(** ** More on OfferDuration.create *)

Section OfferDurationMoreFacts.
Import OfferDuration.

(** X1: which of the four messages [create] throws with: a type that is not
    a string, or the empty string, is reported as not a string; any other
    string outside the three durations as not one of them; 'repeating' with a
    [months] that is not a number (also [undefined] and numeric strings) as
    missing; and with a number that is no integer (NaN, the infinities,
    fractions) as not an integer. *)
Theorem create_error_messages (type months : JsValue) :
  ((forall s, type = JsString s -> s = "") ->
     create type months = inr (InvalidOfferDuration msg_not_string)) /\
  (forall s, type = JsString s -> s <> "" ->
     s <> "once" -> s <> "repeating" -> s <> "forever" ->
     create type months = inr (InvalidOfferDuration msg_not_one_of)) /\
  (type = JsString "repeating" -> typeof months <> TNumber ->
     create type months = inr (InvalidOfferDuration msg_no_months)) /\
  (forall n, type = JsString "repeating" -> months = JsNumber n ->
     float_isInteger n = false ->
     create type months = inr (InvalidOfferDuration msg_not_integer)).
Proof.
  repeat split.
  - intros Hs. destruct type as [| |b|n|s|r]; try reflexivity.
    + destruct b; reflexivity.
    + destruct n as [sg|sg| |sg m e]; reflexivity.
    + rewrite (Hs s eq_refl). reflexivity.
  - intros s -> Hne H1 H2 H3. unfold create.
    destruct s as [|c s']; [congruence|].
    cbn [truthy truthy_string negb orb typeof JsType_eqb strict_neq_string].
    apply String.eqb_neq in H1, H2, H3. rewrite H1, H2, H3. reflexivity.
  - intros -> Hty. rewrite create_repeating.
    destruct months as [| |b|n|s|r]; try reflexivity.
    exfalso. apply Hty. reflexivity.
  - intros n -> -> Hn. rewrite create_repeating. rewrite Hn. reflexivity.
Qed.

(** X2: a created duration can be rebuilt from its own properties: calling
    [create] on [value.type] and [value.months] gives the same value back. *)
Theorem create_round_trip (type months : JsValue) (v : t) :
  create type months = inl v ->
  create (prop_type v) (prop_months v) = inl v.
Proof.
  intros H.
  destruct type as [| |b|n|s|r];
    try (rewrite create_non_string in H by (intros s' Hs'; discriminate Hs');
         discriminate H).
  destruct (String.eqb_spec s "once") as [-> | Ho];
    [| destruct (String.eqb_spec s "forever") as [-> | Hf];
       [| destruct (String.eqb_spec s "repeating") as [-> | Hr] ] ].
  - rewrite create_basic in H by (left; reflexivity).
    injection H as <-. reflexivity.
  - rewrite create_basic in H by (right; reflexivity).
    injection H as <-. reflexivity.
  - rewrite create_repeating in H.
    destruct months as [| |b|n|s|r]; try discriminate H.
    destruct (float_isInteger n) eqn:Hn; [|discriminate H].
    injection H as <-. unfold prop_type, prop_months. simpl OfferDuration.type.
    simpl OfferDuration.months. rewrite create_repeating. rewrite Hn. reflexivity.
  - destruct (create_other_string s months Ho Hr Hf) as [msg Hmsg].
    rewrite Hmsg in H. discriminate H.
Qed.

End OfferDurationMoreFacts.

(** ** More on the closures of MembersAPI *)

Section MembersMoreFacts.
Import MembersAPI Spec.

Variable getDataFromToken : string -> TokenData + JsError.
Variable getGeolocationFromIP : string -> GeoValue + JsError.
Variable parseWebhook : RawBody -> string -> WebhookEvent + JsError.
Variable handleWebhook : WebhookEvent -> M unit.
Variable encodeIdentityToken : string -> string + JsError.

Ltac run_js :=
  unfold bind, ret, throw, lift, gets, modify, record, try_catch,
    logging_error, logging_info; simpl.

(** *** The webhook middleware *)

Lemma handleStripeWebhook_unverified_run
    (req : Request) (w : World) (signature : string) (err : JsError) :
  stripe_configured w = true ->
  as_truthy (req_stripe_signature req) = Some signature ->
  parseWebhook (body_raw req) signature = inr err ->
  handleStripeWebhook parseWebhook handleWebhook req w =
    (inl 401%Z,
     set_log (log w ++ [LogError (err_message err)])
       (set_calls (calls w ++ [CallParseWebhook (body_raw req) signature]) w)).
Proof.
  intros Hc Hs Hparse.
  unfold handleStripeWebhook, stripeWebhookService_parseWebhook.
  cbv zeta. rewrite truthy_body_true, Hs.
  run_js. rewrite Hc. simpl. rewrite Hparse. simpl.
  rewrite ?res_writeHead_valid by lia. reflexivity.
Qed.

(** X3: no error of [parseWebhook] or [handleWebhook] escapes the webhook
    handler.  The handler throws in one situation only: the signature
    verified, [handleWebhook] threw an error, and the status derived from
    that error ([err.statusCode || 500]) is one [res.writeHead] refuses; what
    it throws then is the [RangeError] of [res.writeHead]. *)
Theorem handleStripeWebhook_throws_only_RangeError
    (req : Request) (w : World) (e : JsError) :
  fst (handleStripeWebhook parseWebhook handleWebhook req w) = inr e ->
  exists signature event err,
    req_stripe_signature req = Some signature /\
    parseWebhook (body_raw req) signature = inl event /\
    fst (handleWebhook event
           (set_calls (calls w ++ [CallParseWebhook (body_raw req) signature;
                                   CallHandleWebhook event])
              (set_log (log w ++ [LogInfo ("Handling webhook " ++ ev_type event)]) w)))
      = inr err /\
    (ToInt32 (statusCode_or_500 err) < 100 \/ 999 < ToInt32 (statusCode_or_500 err))%Z /\
    e = RangeError ("Invalid status code: " ++ string_of_Z (statusCode_or_500 err)).
Proof.
  intros Hthrow.
  destruct (stripe_configured w) eqn:Hc.
  2:{ exfalso.
      destruct (handleStripeWebhook_guards parseWebhook handleWebhook req w
                  (or_introl Hc)) as [H _].
      rewrite H in Hthrow. discriminate Hthrow. }
  destruct (as_truthy (req_stripe_signature req)) as [signature|] eqn:Hs.
  2:{ exfalso. apply as_truthy_none in Hs.
      destruct (handleStripeWebhook_guards parseWebhook handleWebhook req w
                  (or_intror Hs)) as [H _].
      rewrite H in Hthrow. discriminate Hthrow. }
  destruct (parseWebhook (body_raw req) signature) as [event|err] eqn:Hparse.
  2:{ exfalso.
      rewrite (handleStripeWebhook_unverified_run req w signature err Hc Hs Hparse)
        in Hthrow.
      discriminate Hthrow. }
  apply as_truthy_some in Hs. destruct Hs as [Hsig Ht].
  rewrite (handleStripeWebhook_verified_run parseWebhook handleWebhook
             req w signature event Hc Hsig Ht Hparse) in Hthrow.
  exists signature, event.
  destruct (handleWebhook event _) as [[[]|err] w'] eqn:Hhandle;
    [discriminate Hthrow|].
  exists err. split; [exact Hsig|]. split; [exact Hparse|].
  split; [rewrite ?Hhandle; reflexivity|].
  unfold res_writeHead in Hthrow. cbv zeta in Hthrow.
  destruct (Z.ltb_spec (ToInt32 (statusCode_or_500 err)) 100) as [Hlo|Hlo];
    simpl in Hthrow.
  - split; [left; exact Hlo|]. injection Hthrow as <-. reflexivity.
  - destruct (Z.ltb_spec 999 (ToInt32 (statusCode_or_500 err))) as [Hhi|Hhi];
      simpl in Hthrow.
    + split; [right; exact Hhi|]. injection Hthrow as <-. reflexivity.
    + discriminate Hthrow.
Qed.

(** X4: the two guards in front of the verification answer 400: when
    Stripe is not configured the handler only logs an error, and when the
    signature header is missing or empty it changes nothing at all, whatever
    the body.  A missing payload alone is no reason for 400: the empty object
    left by the body parser is handed to [parseWebhook], and when that throws
    the answer is 401. *)
Theorem handleStripeWebhook_unverifiable_400 (req : Request) (w : World) :
  (stripe_configured w = false ->
     handleStripeWebhook parseWebhook handleWebhook req w =
       (inl 400%Z,
        set_log (log w ++ [LogError "Stripe not configured, not handling webhook"]) w)) /\
  (stripe_configured w = true ->
   truthy_opt_string (req_stripe_signature req) = false ->
     handleStripeWebhook parseWebhook handleWebhook req w = (inl 400%Z, w)) /\
  (forall signature err,
     stripe_configured w = true ->
     req_body req = None ->
     as_truthy (req_stripe_signature req) = Some signature ->
     parseWebhook RawEmptyObject signature = inr err ->
     handleStripeWebhook parseWebhook handleWebhook req w =
       (inl 401%Z,
        set_log (log w ++ [LogError (err_message err)])
          (set_calls (calls w ++ [CallParseWebhook RawEmptyObject signature]) w))).
Proof.
  split; [|split].
  - intros Hc. unfold handleStripeWebhook. cbv zeta. run_js. rewrite Hc. simpl.
    rewrite ?res_writeHead_valid by lia. reflexivity.
  - intros Hc H. apply as_truthy_none in H.
    unfold handleStripeWebhook. cbv zeta. rewrite truthy_body_true, H.
    run_js. rewrite Hc. simpl. rewrite ?res_writeHead_valid by lia. reflexivity.
  - intros signature err Hc Hbody Hs Hparse.
    assert (Hraw : body_raw req = RawEmptyObject)
      by (unfold body_raw; rewrite Hbody; reflexivity).
    rewrite <- Hraw in Hparse |- *.
    exact (handleStripeWebhook_unverified_run req w signature err Hc Hs Hparse).
Qed.

(** X5: a verified request whose processing succeeds is answered 200, and
    [handleWebhook] has been run exactly on the event returned by
    [parseWebhook]: the world left by the handler is the world left by that
    run. *)
Theorem handleStripeWebhook_processed_200
    (req : Request) (w w' : World) (signature : string) (event : WebhookEvent) :
  stripe_configured w = true ->
  req_stripe_signature req = Some signature ->
  truthy_string signature = true ->
  parseWebhook (body_raw req) signature = inl event ->
  handleWebhook event
    (set_calls (calls w ++ [CallParseWebhook (body_raw req) signature;
                            CallHandleWebhook event])
       (set_log (log w ++ [LogInfo ("Handling webhook " ++ ev_type event)]) w))
    = (inl tt, w') ->
  handleStripeWebhook parseWebhook handleWebhook req w = (inl 200%Z, w').
Proof.
  intros Hc Hsig Ht Hparse Hhandle.
  exact (handleStripeWebhook_success_200 parseWebhook handleWebhook
           req w w' signature event Hc Hsig Ht Hparse Hhandle).
Qed.

(** *** Sending magic links *)

(** X6: the two system-initiated senders force the email type: the BREAD
    service's [sendEmailWithMagicLink] sends the requested type and
    [sendSignupEmail] sends 'signup-paid', both with token data holding only
    the email, and neither looks the member up (the only collaborator call is
    the sending itself), whether or not a member with the email exists. *)
Theorem forced_senders_skip_member_lookup (email requestedType : string) (w : World) :
  let link1 := mkMagicLink email requestedType ""
                 (mkTokenData (Some email) None None None) in
  let link2 := mkMagicLink email "signup-paid" ""
                 (mkTokenData (Some email) None None None) in
  emailService_sendEmailWithMagicLink email requestedType w =
    (inl tt, set_outbox (outbox w ++ [link1])
               (set_calls (calls w ++ [CallSendMagicLink link1]) w)) /\
  sendSignupEmail email w =
    (inl tt, set_outbox (outbox w ++ [link2])
               (set_calls (calls w ++ [CallSendMagicLink link2]) w)).
Proof.
  split; reflexivity.
Qed.

(** X7: without the force option the type of the link that is sent is
    always one of 'signin', 'signup' and 'subscribe', whatever type was
    requested. *)
Theorem sendEmailWithMagicLink_unforced_types (args : SendArgs) (w : World) :
  force_option_set args = false ->
  exists link,
    outbox (snd (sendEmailWithMagicLink args w)) = (outbox w ++ [link])%list /\
    ml_email link = email args /\
    (ml_type link = "signin" \/ ml_type link = "signup" \/ ml_type link = "subscribe").
Proof.
  destruct args as [em rt td opts src].
  unfold force_option_set, sendEmailWithMagicLink, users_get,
    magicLinkService_sendMagicLink.
  cbn [email requestedType tokenData options requestSrc].
  intros Hforce.
  destruct opts as [[[[|]|]]|]; try discriminate Hforce; run_js;
    (destruct (find_by_email em (members w)); simpl;
     [ eexists; split; [reflexivity|]; split; [reflexivity|]; left; reflexivity
     | destruct (String.eqb_spec rt "subscribe") as [-> | Hne]; simpl;
       eexists; (split; [reflexivity|]); (split; [reflexivity|]);
       [ right; right; reflexivity | right; left; reflexivity ] ]).
Qed.

(** *** Identity tokens *)

Lemma find_by_email_email (email : string) (ms : list Member) (m : Member) :
  find_by_email email ms = Some m -> m_email m = email.
Proof.
  intros H. apply find_some in H. destruct H as [_ H].
  apply String.eqb_eq. exact H.
Qed.

Lemma find_by_email_in (email : string) (ms : list Member) (m : Member) :
  In m ms -> m_email m = email -> find_by_email email ms <> None.
Proof.
  intros Hin He Hnone. pose proof (find_none _ _ Hnone m Hin) as H.
  simpl in H. rewrite He, String.eqb_refl in H. discriminate H.
Qed.

(** X8: [getMemberIdentityToken] returns [null] exactly when no member has
    the email; otherwise the token it returns (or the error it throws) is the
    one [encodeIdentityToken] gives for the requested email as subject.  It
    only reads: the one collaborator call is the identity lookup. *)
Theorem getMemberIdentityToken_subject (email : string) (w : World) :
  let r := getMemberIdentityToken encodeIdentityToken email w in
  (fst r = inl None <-> find_by_email email (members w) = None) /\
  (find_by_email email (members w) <> None ->
     fst r = match encodeIdentityToken email with
             | inl token => inl (Some token)
             | inr err => inr err
             end) /\
  snd r = set_calls (calls w ++ [CallRead email]) w.
Proof.
  unfold getMemberIdentityToken, getMemberIdentityData, memberBREADService_read.
  run_js.
  destruct (find_by_email email (members w)) as [m|] eqn:Hfind; simpl.
  - rewrite (find_by_email_email _ _ _ Hfind).
    destruct (encodeIdentityToken email) as [token|err]; simpl.
    + split; [split; discriminate|]. split; reflexivity.
    + split; [split; discriminate|]. split; reflexivity.
  - split; [split; reflexivity|]. split; [congruence | reflexivity].
Qed.

(** *** The member store under creation and update *)

Lemma NoDup_snoc {A : Type} (l : list A) (a : A) :
  NoDup l -> ~ In a l -> NoDup (l ++ [a]).
Proof.
  induction l as [|x l IH]; simpl; intros Hnd Hin.
  - constructor; [intros [] | constructor].
  - inversion Hnd as [|? ? Hx Hl]; subst. constructor.
    + rewrite in_app_iff. simpl. intros [H | [H | []]]; [exact (Hx H)|].
      apply Hin. left. symmetry. exact H.
    + apply IH; [exact Hl|]. intros H. apply Hin. right. exact H.
Qed.

Lemma fresh_id_above (ms : list Member) (i : nat) :
  In i (map m_id ms) -> i < fresh_id ms.
Proof.
  unfold fresh_id. induction ms as [|m ms IH]; simpl; [intros []|].
  intros [<- | H]; [lia|]. specialize (IH H). lia.
Qed.

Lemma email_not_stored (email : string) (ms : list Member) :
  find_by_email email ms = None -> ~ In email (map m_email ms).
Proof.
  intros Hnone Hin. apply in_map_iff in Hin. destruct Hin as [m [He Hin]].
  exact (find_by_email_in email ms m Hin He Hnone).
Qed.

Lemma created_unique (ms : list Member) (name email : string) (labels : list string) :
  unique_members ms ->
  find_by_email email ms = None ->
  unique_members (ms ++ [mkMember (fresh_id ms) email name labels None]).
Proof.
  intros [Hids Hemails] Hnone. unfold unique_members.
  rewrite !map_app. simpl. split.
  - apply NoDup_snoc; [exact Hids|]. intros H.
    apply fresh_id_above in H. lia.
  - apply NoDup_snoc; [exact Hemails|]. apply email_not_stored. exact Hnone.
Qed.

Lemma updated_ids (data : Member) (id : nat) (ms : list Member) :
  map m_id (updated data id ms) = map m_id ms.
Proof.
  unfold updated. induction ms as [|m ms IH]; simpl; [reflexivity|].
  rewrite IH. destruct (Nat.eqb (m_id m) id); reflexivity.
Qed.

Lemma not_taken_in (email : string) (id : nat) (ms : list Member) (m : Member) :
  email_taken_by_other email id ms = false ->
  In m ms -> m_email m = email -> m_id m = id.
Proof.
  intros Hfree Hin He.
  destruct (Nat.eqb (m_id m) id) eqn:Hid; [apply Nat.eqb_eq; exact Hid|].
  exfalso.
  assert (Ht : email_taken_by_other email id ms = true).
  { unfold email_taken_by_other. apply existsb_exists. exists m. split; [exact Hin|].
    rewrite He, String.eqb_refl, Hid. reflexivity. }
  congruence.
Qed.

Lemma updated_emails_unique (data : Member) (id : nat) (ms : list Member) :
  NoDup (map m_id ms) ->
  NoDup (map m_email ms) ->
  email_taken_by_other (m_email data) id ms = false ->
  NoDup (map m_email (updated data id ms)).
Proof.
  unfold updated. induction ms as [|y ys IH]; simpl; intros Hids Hemails Hfree; [constructor|].
  inversion Hids as [|? ? Hyid Hysid]; subst.
  inversion Hemails as [|? ? Hyem Hysem]; subst.
  apply orb_false_iff in Hfree. destruct Hfree as [Hhead Htail].
  constructor; [|apply IH; assumption].
  intros Hin. apply in_map_iff in Hin. destruct Hin as [z' [Hz' Hin]].
  apply in_map_iff in Hin. destruct Hin as [z [<- Hz]].
  destruct (Nat.eqb (m_id y) id) eqn:Hy.
  - (* the head is updated: nobody in the tail may carry the new email *)
    apply Nat.eqb_eq in Hy.
    destruct (Nat.eqb (m_id z) id) eqn:Hzid.
    + apply Nat.eqb_eq in Hzid. apply Hyid. rewrite Hy, <- Hzid.
      apply in_map. exact Hz.
    + simpl in Hz'. pose proof (not_taken_in _ _ _ z Htail Hz Hz') as Hc.
      apply Nat.eqb_neq in Hzid. exact (Hzid Hc).
  - (* the head is kept *)
    destruct (Nat.eqb (m_id z) id) eqn:Hzid.
    + simpl in Hz'. rewrite <- Hz', String.eqb_refl in Hhead.
      rewrite ?Hy in Hhead. discriminate Hhead.
    + apply Hyem. rewrite <- Hz'. apply in_map. exact Hz.
Qed.

Lemma updated_unique (data : Member) (id : nat) (ms : list Member) :
  unique_members ms ->
  email_taken_by_other (m_email data) id ms = false ->
  unique_members (updated data id ms).
Proof.
  intros [Hids Hemails] Hfree. split.
  - rewrite updated_ids. exact Hids.
  - apply updated_emails_unique; assumption.
Qed.

(** What a redemption can do to the world: the members are kept, grow by one
    new member, or are updated under an accepted email; at most one login
    event is appended; nothing else changes. *)
Lemma getMemberDataFromMagicLinkToken_effects (token : string) (w : World) :
  let r := getMemberDataFromMagicLinkToken getDataFromToken token w in
  (members (snd r) = members w \/
   (exists name email labels,
       find_by_email email (members w) = None /\
       members (snd r) =
         (members w ++ [mkMember (fresh_id (members w)) email name labels None])%list) \/
   (exists data id,
       email_taken_by_other (m_email data) id (members w) = false /\
       members (snd r) = updated data id (members w))) /\
  (login_events (snd r) = login_events w \/
   exists id, login_events (snd r) = (login_events w ++ [mkLoginEvent id])%list) /\
  subscriptions (snd r) = subscriptions w /\
  outbox (snd r) = outbox w /\
  log (snd r) = log w.
Proof.
  unfold getMemberDataFromMagicLinkToken, getMemberIdentityData,
    memberBREADService_read, MemberLoginEvent_add, users_create, users_update.
  run_js.
  destruct (getDataFromToken token) as [data|err]; simpl;
    [|split; [left; reflexivity | split; [left; reflexivity | repeat split]]].
  destruct (as_truthy (td_email data)) as [B|]; simpl;
    [|split; [left; reflexivity | split; [left; reflexivity | repeat split]]].
  destruct (as_truthy (td_oldEmail data)) as [A|]; simpl.
  - destruct (find_by_email A (members w)) as [m|]; simpl.
    + destruct (email_taken_by_other B (m_id m) (members w)) eqn:Htaken; simpl;
        [split; [left; reflexivity | split; [right; eexists; reflexivity | repeat split]]|].
      destruct (find_by_id (m_id m) (members w)); simpl.
      * split; [|split; [right; eexists; reflexivity | repeat split]].
        right. right. exists (set_email B m), (m_id m). split; [exact Htaken | reflexivity].
      * split; [left; reflexivity | split; [right; eexists; reflexivity | repeat split]].
    + destruct (find_by_email B (members w)) eqn:HB; simpl.
      * split; [left; reflexivity | split; [left; reflexivity | repeat split]].
      * split; [|split; [right; eexists; reflexivity | repeat split]].
        right. left. do 3 eexists. split; [exact HB | reflexivity].
  - destruct (find_by_email B (members w)) as [m|] eqn:HB; simpl.
    + split; [left; reflexivity | split; [right; eexists; reflexivity | repeat split]].
    + rewrite HB. simpl.
      split; [|split; [right; eexists; reflexivity | repeat split]].
      right. left. do 3 eexists. split; [exact HB | reflexivity].
Qed.

(** X9: a redemption keeps the member store well formed: if no two members
    share an id or an email before [getMemberDataFromMagicLinkToken], none do
    after it, for every token and whether it returns or throws. *)
Theorem getMemberDataFromMagicLinkToken_keeps_unique (token : string) (w : World) :
  unique_members (members w) ->
  unique_members
    (members (snd (getMemberDataFromMagicLinkToken getDataFromToken token w))).
Proof.
  intros Hu.
  destruct (getMemberDataFromMagicLinkToken_effects token w)
    as [[Hm | [[name [email [labels [Hnone Hm]]]] | [data [id [Hfree Hm]]]]] _];
    rewrite Hm.
  - exact Hu.
  - apply created_unique; assumption.
  - apply updated_unique; assumption.
Qed.

(** X10: a redemption never removes anything: the ids of the stored
    members are kept in order with at most one new id behind them, at most one
    login event is appended to the existing ones, and subscriptions, outbox
    and log are untouched; this holds for every token, also when the call
    throws. *)
Theorem getMemberDataFromMagicLinkToken_append_only (token : string) (w : World) :
  let r := getMemberDataFromMagicLinkToken getDataFromToken token w in
  (exists ids, map m_id (members (snd r)) = (map m_id (members w) ++ ids)%list /\
               List.length ids <= 1) /\
  (exists events, login_events (snd r) = (login_events w ++ events)%list /\
                  List.length events <= 1) /\
  subscriptions (snd r) = subscriptions w /\
  outbox (snd r) = outbox w /\
  log (snd r) = log w.
Proof.
  destruct (getMemberDataFromMagicLinkToken_effects token w)
    as [Hmembers [Hevents Hrest]].
  split; [|split; [|exact Hrest]].
  - destruct Hmembers as [Hm | [[name [email [labels [_ Hm]]]] | [data [id [_ Hm]]]]];
      rewrite Hm.
    + exists []. rewrite app_nil_r. split; [reflexivity | simpl; lia].
    + rewrite map_app. eexists. split; [reflexivity | simpl; lia].
    + rewrite updated_ids. exists []. rewrite app_nil_r.
      split; [reflexivity | simpl; lia].
  - destruct Hevents as [He | [id He]]; rewrite He.
    + exists []. rewrite app_nil_r. split; [reflexivity | simpl; lia].
    + eexists. split; [reflexivity | simpl; lia].
Qed.

(** *** Redemptions, step by step *)

Lemma redeem_found_run (token : string) (data : TokenData) (e : string)
    (m : Member) (w : World) :
  getDataFromToken token = inl data ->
  as_truthy (td_email data) = Some e ->
  as_truthy (td_oldEmail data) = None ->
  find_by_email e (members w) = Some m ->
  getMemberDataFromMagicLinkToken getDataFromToken token w =
    (inl (Some m),
     mkWorld (members w) (login_events w ++ [mkLoginEvent (m_id m)])
             (subscriptions w) (outbox w) (stripe_configured w) (log w)
             (calls w ++ [CallRead e; CallLoginEventAdd (m_id m)])).
Proof.
  intros Hdec He Hold Hfind.
  unfold getMemberDataFromMagicLinkToken, getMemberIdentityData,
    memberBREADService_read, MemberLoginEvent_add.
  run_js. rewrite Hdec, He, Hold. simpl. rewrite Hfind. simpl.
  rewrite <- !app_assoc. reflexivity.
Qed.

Lemma redeem_new_run (token : string) (data : TokenData) (e : string) (w : World) :
  getDataFromToken token = inl data ->
  as_truthy (td_email data) = Some e ->
  as_truthy (td_oldEmail data) = None ->
  find_by_email e (members w) = None ->
  let new := mkMember (fresh_id (members w)) e
                      (default "" (td_name data)) (default [] (td_labels data)) None in
  getMemberDataFromMagicLinkToken getDataFromToken token w =
    (inl (Some new),
     mkWorld (members w ++ [new]) (login_events w ++ [mkLoginEvent (m_id new)])
             (subscriptions w) (outbox w) (stripe_configured w) (log w)
             (calls w ++ [CallRead e;
                          CallUsersCreate (default "" (td_name data)) e
                                          (default [] (td_labels data));
                          CallLoginEventAdd (m_id new); CallRead e])).
Proof.
  intros Hdec He Hold Hfind.
  unfold getMemberDataFromMagicLinkToken, getMemberIdentityData,
    memberBREADService_read, MemberLoginEvent_add, users_create.
  run_js. rewrite Hdec, He, Hold. simpl. rewrite Hfind. simpl. rewrite Hfind. simpl.
  rewrite (find_by_email_snoc _ _ _ Hfind). simpl. rewrite String.eqb_refl.
  rewrite <- !app_assoc. reflexivity.
Qed.

Lemma redeem_change_run (token : string) (data : TokenData) (A B : string)
    (m : Member) (w : World) :
  getDataFromToken token = inl data ->
  as_truthy (td_email data) = Some B ->
  as_truthy (td_oldEmail data) = Some A ->
  find_by_email A (members w) = Some m ->
  email_taken_by_other B (m_id m) (members w) = false ->
  let ms := updated (set_email B m) (m_id m) (members w) in
  getMemberDataFromMagicLinkToken getDataFromToken token w =
    (inl (find_by_email B ms),
     mkWorld ms (login_events w ++ [mkLoginEvent (m_id m)])
             (subscriptions w) (outbox w) (stripe_configured w) (log w)
             (calls w ++ [CallRead A; CallLoginEventAdd (m_id m);
                          CallUsersUpdate (set_email B m) (m_id m); CallRead B])).
Proof.
  intros Hdec HB HA Hfind Hfree.
  destruct (find_by_email_has_id _ _ _ Hfind) as [x [Hx _]].
  unfold getMemberDataFromMagicLinkToken, getMemberIdentityData,
    memberBREADService_read, MemberLoginEvent_add, users_update, updated.
  run_js. rewrite Hdec, HB, HA. simpl. rewrite Hfind. simpl.
  rewrite Hfree. simpl. rewrite Hx. simpl.
  rewrite <- !app_assoc. reflexivity.
Qed.

Lemma NoDup_map_inj {A B : Type} (f : A -> B) (l : list A) (x y : A) :
  NoDup (map f l) -> In x l -> In y l -> f x = f y -> x = y.
Proof.
  induction l as [|a l IH]; simpl; intros Hnd Hx Hy Hf; [destruct Hx|].
  inversion Hnd as [|? ? Ha Hl]; subst.
  destruct Hx as [-> | Hx], Hy as [-> | Hy].
  - reflexivity.
  - exfalso. apply Ha. rewrite Hf. apply in_map. exact Hy.
  - exfalso. apply Ha. rewrite <- Hf. apply in_map. exact Hx.
  - apply IH; assumption.
Qed.

(** After an accepted update the new email resolves to the updated member. *)
Lemma updated_find_new (data : Member) (ms : list Member) :
  email_taken_by_other (m_email data) (m_id data) ms = false ->
  (exists y, In y ms /\ m_id y = m_id data) ->
  find_by_email (m_email data) (updated data (m_id data) ms) = Some data.
Proof.
  intros Hfree [y [Hy Hyid]].
  destruct (find_by_email (m_email data) (updated data (m_id data) ms)) as [z|] eqn:Hz.
  - apply find_some in Hz. destruct Hz as [Hin Hemail].
    apply String.eqb_eq in Hemail.
    unfold updated in Hin. apply in_map_iff in Hin. destruct Hin as [u [Hu Hin]].
    destruct (Nat.eqb (m_id u) (m_id data)) eqn:Hid.
    + apply Nat.eqb_eq in Hid. subst z. unfold apply_update. rewrite Hid.
      destruct data; reflexivity.
    + subst z. pose proof (not_taken_in _ _ _ u Hfree Hin Hemail) as Hc.
      apply Nat.eqb_neq in Hid. contradiction.
  - exfalso. refine (find_by_email_in (m_email data) _ (apply_update data y) _ _ Hz).
    + unfold updated. apply in_map_iff. exists y. split; [|exact Hy].
      rewrite Hyid, Nat.eqb_refl. reflexivity.
    + reflexivity.
Qed.

(** With unique emails, the email a member is moved away from resolves to
    nobody afterwards. *)
Lemma updated_find_old (data m : Member) (ms : list Member) :
  NoDup (map m_email ms) ->
  In m ms ->
  m_email m <> m_email data ->
  find_by_email (m_email m) (updated data (m_id m) ms) = None.
Proof.
  intros Hnd Hm Hne.
  destruct (find_by_email (m_email m) (updated data (m_id m) ms)) as [z|] eqn:Hz;
    [|reflexivity].
  exfalso. apply find_some in Hz. destruct Hz as [Hin Hemail].
  apply String.eqb_eq in Hemail.
  unfold updated in Hin. apply in_map_iff in Hin. destruct Hin as [u [Hu Hin]].
  destruct (Nat.eqb (m_id u) (m_id m)) eqn:Hid.
  - subst z. simpl in Hemail. congruence.
  - subst z. pose proof (NoDup_map_inj m_email ms u m Hnd Hin Hm Hemail) as ->.
    rewrite Nat.eqb_refl in Hid. discriminate Hid.
Qed.

Lemma find_by_email_member (email : string) (ms : list Member) (m : Member) :
  find_by_email email ms = Some m -> In m ms.
Proof.
  intros H. apply find_some in H. exact (proj1 H).
Qed.

(** X11: a redemption returns [null] only for a token without an email:
    whenever [getMemberDataFromMagicLinkToken] returns for a token that
    carries an email, it returns a member. *)
Theorem getMemberDataFromMagicLinkToken_null_iff_no_email (token : string) (w : World) :
  fst (getMemberDataFromMagicLinkToken getDataFromToken token w) = inl None <->
  exists data, getDataFromToken token = inl data /\
               truthy_opt_string (td_email data) = false.
Proof.
  split.
  - intros Hnull.
    destruct (getDataFromToken token) as [data|err] eqn:Hdec.
    2:{ unfold getMemberDataFromMagicLinkToken in Hnull. run_js.
        unfold bind, lift in Hnull. rewrite Hdec in Hnull. discriminate Hnull. }
    exists data. split; [reflexivity|]. apply as_truthy_none.
    destruct (as_truthy (td_email data)) as [B|] eqn:HB; [exfalso | reflexivity].
    destruct (as_truthy (td_oldEmail data)) as [A|] eqn:HA.
    + destruct (find_by_email A (members w)) as [m|] eqn:Hfind.
      * destruct (email_taken_by_other B (m_id m) (members w)) eqn:Hfree.
        -- unfold getMemberDataFromMagicLinkToken, getMemberIdentityData,
             memberBREADService_read, MemberLoginEvent_add, users_update in Hnull.
           unfold bind, ret, throw, lift, gets, modify, record in Hnull.
           simpl in Hnull. rewrite Hdec, HB, HA in Hnull. simpl in Hnull.
           rewrite Hfind in Hnull. simpl in Hnull. rewrite Hfree in Hnull.
           discriminate Hnull.
        -- rewrite (redeem_change_run token data A B m w Hdec HB HA Hfind Hfree)
             in Hnull.
           simpl in Hnull. injection Hnull as Hnull.
           assert (Hnew : find_by_email (m_email (set_email B m))
                            (updated (set_email B m) (m_id (set_email B m)) (members w))
                          = Some (set_email B m)).
           { apply updated_find_new; [exact Hfree|].
             exists m. split; [exact (find_by_email_member _ _ _ Hfind) | reflexivity]. }
           simpl in Hnew. congruence.
      * unfold getMemberDataFromMagicLinkToken, getMemberIdentityData,
          memberBREADService_read, MemberLoginEvent_add, users_create in Hnull.
        unfold bind, ret, throw, lift, gets, modify, record in Hnull.
        simpl in Hnull. rewrite Hdec, HB, HA in Hnull. simpl in Hnull.
        rewrite Hfind in Hnull. simpl in Hnull.
        destruct (find_by_email B (members w)) eqn:HfB; simpl in Hnull;
          [discriminate Hnull|].
        rewrite (find_by_email_snoc _ _ _ HfB) in Hnull. simpl in Hnull.
        rewrite String.eqb_refl in Hnull. discriminate Hnull.
    + destruct (find_by_email B (members w)) as [m|] eqn:Hfind.
      * rewrite (redeem_found_run token data B m w Hdec HB HA Hfind) in Hnull.
        discriminate Hnull.
      * rewrite (redeem_new_run token data B w Hdec HB HA Hfind) in Hnull.
        discriminate Hnull.
  - intros [data [Hdec Hemail]]. apply as_truthy_none in Hemail.
    unfold getMemberDataFromMagicLinkToken. run_js.
    rewrite Hdec, Hemail. reflexivity.
Qed.

Lemma redeem_calls_grow (token : string) (data : TokenData) (B : string) (w : World) :
  getDataFromToken token = inl data ->
  as_truthy (td_email data) = Some B ->
  exists c rest,
    calls (snd (getMemberDataFromMagicLinkToken getDataFromToken token w)) =
      (calls w ++ c :: rest)%list.
Proof.
  intros Hdec HB.
  destruct (as_truthy (td_oldEmail data)) as [A|] eqn:HA.
  - exists (CallRead A).
    exact (email_change_resolves_by_oldEmail getDataFromToken token data A B w Hdec HA HB).
  - destruct (find_by_email B (members w)) as [m|] eqn:Hfind.
    + rewrite (redeem_found_run token data B m w Hdec HB HA Hfind).
      do 2 eexists. reflexivity.
    + rewrite (redeem_new_run token data B w Hdec HB HA Hfind).
      do 2 eexists. reflexivity.
Qed.

(** X12: a redemption leaves the world exactly as it was, without a single
    collaborator call, if and only if the token does not decode or decodes to
    data without an email; every other redemption starts with an identity
    lookup. *)
Theorem getMemberDataFromMagicLinkToken_untouched_iff (token : string) (w : World) :
  snd (getMemberDataFromMagicLinkToken getDataFromToken token w) = w <->
  (exists err, getDataFromToken token = inr err) \/
  (exists data, getDataFromToken token = inl data /\
                truthy_opt_string (td_email data) = false).
Proof.
  split.
  - intros Hsame.
    destruct (getDataFromToken token) as [data|err] eqn:Hdec;
      [right | left; exists err; reflexivity].
    exists data. split; [reflexivity|]. apply as_truthy_none.
    destruct (as_truthy (td_email data)) as [B|] eqn:HB; [exfalso | reflexivity].
    destruct (redeem_calls_grow token data B w Hdec HB) as [c [rest Hcalls]].
    rewrite Hsame in Hcalls. apply (f_equal (@List.length Call)) in Hcalls.
    rewrite length_app in Hcalls. simpl in Hcalls. lia.
  - intros [[err Hdec] | [data [Hdec Hemail]]].
    + unfold getMemberDataFromMagicLinkToken. run_js. rewrite Hdec. reflexivity.
    + apply as_truthy_none in Hemail.
      unfold getMemberDataFromMagicLinkToken. run_js.
      rewrite Hdec, Hemail. reflexivity.
Qed.

(** X13: redeeming the same token twice in a row for a new email creates
    the member once: both redemptions return the same new member, the members
    grow by exactly that member, and each redemption appends one login event
    with its id. *)
Theorem getMemberDataFromMagicLinkToken_twice
    (token : string) (data : TokenData) (email : string) (w : World) :
  getDataFromToken token = inl data ->
  td_email data = Some email ->
  truthy_string email = true ->
  truthy_opt_string (td_oldEmail data) = false ->
  find_by_email email (members w) = None ->
  let new := mkMember (fresh_id (members w)) email
                      (default "" (td_name data)) (default [] (td_labels data)) None in
  let r1 := getMemberDataFromMagicLinkToken getDataFromToken token w in
  let r2 := getMemberDataFromMagicLinkToken getDataFromToken token (snd r1) in
  fst r1 = inl (Some new) /\
  fst r2 = inl (Some new) /\
  members (snd r2) = (members w ++ [new])%list /\
  login_events (snd r2) =
    (login_events w ++ [mkLoginEvent (m_id new); mkLoginEvent (m_id new)])%list.
Proof.
  intros Hdec Hemail Htruthy Hold Hfind new r1 r2.
  assert (He : as_truthy (td_email data) = Some email)
    by (apply as_truthy_some; split; assumption).
  apply as_truthy_none in Hold.
  pose proof (redeem_new_run token data email w Hdec He Hold Hfind) as H1.
  cbv zeta in H1. fold new in H1.
  subst r2 r1. rewrite H1. cbn [fst snd].
  assert (Hfound : find_by_email email (members w ++ [new]) = Some new).
  { rewrite (find_by_email_snoc _ _ _ Hfind). subst new. simpl.
    rewrite String.eqb_refl. reflexivity. }
  match goal with
  | |- context [getMemberDataFromMagicLinkToken _ _ ?w1] =>
      rewrite (redeem_found_run token data email new w1 Hdec He Hold Hfound)
  end.
  cbn [fst snd members login_events]. rewrite <- app_assoc.
  repeat split.
Qed.

(** X14: in the world a redemption of a token (without oldEmail) for an
    email leaves, a member with that email exists, whether the redemption
    found or created it; so an unforced [sendEmailWithMagicLink] for the email
    that comes next sends a 'signin' link, whatever type is requested. *)
Theorem redeemed_email_gets_signin_links
    (token : string) (data : TokenData) (args : SendArgs) (w : World) :
  getDataFromToken token = inl data ->
  td_email data = Some (email args) ->
  truthy_string (email args) = true ->
  truthy_opt_string (td_oldEmail data) = false ->
  force_option_set args = false ->
  let w1 := snd (getMemberDataFromMagicLinkToken getDataFromToken token w) in
  outbox (snd (sendEmailWithMagicLink args w1)) =
    (outbox w ++ [mkMagicLink (email args) "signin" (default "" (requestSrc args))
                              (Object_assign_email (email args) (tokenData args))])%list.
Proof.
  intros Hdec Hemail Htruthy Hold Hforce w1.
  assert (He : as_truthy (td_email data) = Some (email args))
    by (apply as_truthy_some; split; assumption).
  apply as_truthy_none in Hold.
  assert (Hw1 : outbox w1 = outbox w /\
                exists m, find_by_email (email args) (members w1) = Some m).
  { subst w1. destruct (find_by_email (email args) (members w)) as [m|] eqn:Hfind.
    - rewrite (redeem_found_run token data _ m w Hdec He Hold Hfind).
      split; [reflexivity|]. exists m. exact Hfind.
    - rewrite (redeem_new_run token data _ w Hdec He Hold Hfind).
      split; [reflexivity|]. eexists. cbn [snd members].
      rewrite (find_by_email_snoc _ _ _ Hfind). simpl.
      rewrite String.eqb_refl. reflexivity. }
  destruct Hw1 as [Hout [m Hm]]. rewrite <- Hout. clearbody w1.
  destruct args as [em rt td opts src].
  unfold force_option_set in Hforce.
  unfold sendEmailWithMagicLink, users_get, magicLinkService_sendMagicLink.
  cbn [email requestedType tokenData options requestSrc] in *.
  destruct opts as [[[[|]|]]|]; try discriminate Hforce; run_js;
    rewrite Hm; reflexivity.
Qed.

(** X15: after a committed email change the old email resolves to nobody
    and the new email to the same member under its new email, provided the
    stored emails were unique and the two emails differ. *)
Theorem email_change_moves_identity
    (token : string) (data : TokenData) (A B : string) (m : Member) (w : World) :
  getDataFromToken token = inl data ->
  td_oldEmail data = Some A ->
  truthy_string A = true ->
  td_email data = Some B ->
  truthy_string B = true ->
  A <> B ->
  find_by_email A (members w) = Some m ->
  email_taken_by_other B (m_id m) (members w) = false ->
  NoDup (map m_email (members w)) ->
  let r := getMemberDataFromMagicLinkToken getDataFromToken token w in
  fst r = inl (Some (set_email B m)) /\
  fst (getMemberIdentityData A (snd r)) = inl None /\
  fst (getMemberIdentityData B (snd r)) = inl (Some (set_email B m)).
Proof.
  intros Hdec HoA HtA HeB HtB Hne Hfind Hfree Hnd r.
  assert (HA : as_truthy (td_oldEmail data) = Some A)
    by (apply as_truthy_some; split; assumption).
  assert (HB : as_truthy (td_email data) = Some B)
    by (apply as_truthy_some; split; assumption).
  pose proof (find_by_email_member _ _ _ Hfind) as Hin.
  pose proof (find_by_email_email _ _ _ Hfind) as HmA.
  assert (Hnew : find_by_email B (updated (set_email B m) (m_id m) (members w))
                 = Some (set_email B m)).
  { apply (updated_find_new (set_email B m) (members w)); [exact Hfree|].
    exists m. split; [exact Hin | reflexivity]. }
  assert (Hold : find_by_email A (updated (set_email B m) (m_id m) (members w)) = None).
  { rewrite <- HmA. apply updated_find_old; [exact Hnd | exact Hin|].
    simpl. congruence. }
  subst r. rewrite (redeem_change_run token data A B m w Hdec HB HA Hfind Hfree).
  unfold getMemberIdentityData, memberBREADService_read. run_js.
  rewrite Hnew, Hold. repeat split.
Qed.

(** *** Geolocation *)

Lemma escape_plain (s : string) :
  (forall c, In c (list_ascii_of_string s) ->
             32 <= nat_of_ascii c /\ nat_of_ascii c <> 34 /\ nat_of_ascii c <> 92) ->
  escape s = s.
Proof.
  induction s as [|c s IH]; simpl; intros H; [reflexivity|].
  rewrite IH by (intros c' Hc'; apply H; right; exact Hc').
  destruct (H c (or_introl eq_refl)) as [H32 [H34 H92]].
  unfold escape_char. cbv zeta.
  repeat match goal with
         | |- context [Nat.eqb (nat_of_ascii c) ?k] =>
             destruct (Nat.eqb_spec (nat_of_ascii c) k); [lia|]
         end.
  destruct (Nat.ltb_spec (nat_of_ascii c) 32); [lia | reflexivity].
Qed.

Example escape_quote_and_backslash :
  escape ("a" ++ dq ++ "b" ++ String backslash "c") =
  "a" ++ String backslash dq ++ "b" ++ String backslash (String backslash "c").
Proof. reflexivity. Qed.

Example escape_control_characters :
  escape (String (ascii_of_nat 10) (String (ascii_of_nat 9) (String (ascii_of_nat 31) "")))
  = String backslash "n" ++ String backslash "t" ++ String backslash "u001f".
Proof. reflexivity. Qed.

Example stringify_nested :
  stringify_json
    (JsonObject [("a", JsonArray [JsonNumber "1.5"; JsonNull; JsonBoolean true]);
                 ("b", JsonObject [])]) =
  "{" ++ dq ++ "a" ++ dq ++ ":[1.5,null,true]," ++ dq ++ "b" ++ dq ++ ":{}}".
Proof. reflexivity. Qed.


Lemma updated_forget_geolocation (g : string) (m : Member) (ms : list Member) :
  NoDup (map m_id ms) ->
  In m ms ->
  map forget_geolocation (updated (set_geolocation g m) (m_id m) ms) =
  map forget_geolocation ms.
Proof.
  intros Hnd Hm. unfold updated. rewrite map_map. apply map_ext_in.
  intros y Hy. destruct (Nat.eqb (m_id y) (m_id m)) eqn:Hid; [|reflexivity].
  apply Nat.eqb_eq in Hid.
  pose proof (NoDup_map_inj m_id ms y m Hnd Hy Hm Hid) as ->. reflexivity.
Qed.

(** X17: with unique member ids, [setMemberGeolocationFromIp] can change
    nothing but geolocation fields: for every email, address and lookup
    outcome, and also when it throws, the members are the same up to their
    geolocation, and login events, subscriptions and outbox are untouched. *)
Theorem setMemberGeolocationFromIp_only_geolocation (email ip : string) (w : World) :
  NoDup (map m_id (members w)) ->
  let r := setMemberGeolocationFromIp getGeolocationFromIP email ip w in
  map forget_geolocation (members (snd r)) = map forget_geolocation (members w) /\
  login_events (snd r) = login_events w /\
  subscriptions (snd r) = subscriptions w /\
  outbox (snd r) = outbox w.
Proof.
  intros Hnd.
  unfold setMemberGeolocationFromIp, users_get,
    geolocationService_getGeolocationFromIP, users_update,
    getMemberIdentityData, memberBREADService_read, toJSON.
  destruct (negb (truthy_string email) || negb (truthy_string ip));
    [repeat split|].
  run_js.
  destruct (find_by_email email (members w)) as [m|] eqn:Hfind; simpl;
    [|repeat split].
  pose proof (find_by_email_member _ _ _ Hfind) as Hin.
  destruct (getGeolocationFromIP ip) as [[|body]|err]; simpl;
    try (repeat split; fail).
  destruct (truthy_string (stringify_json body)); simpl; [|repeat split].
  destruct (email_taken_by_other (m_email m) (m_id m) (members w)); simpl;
    [repeat split|].
  destruct (find_by_id (m_id m) (members w)); simpl; [|repeat split].
  split; [|repeat split].
  exact (updated_forget_geolocation _ m (members w) Hnd Hin).
Qed.

(** X18: called with an empty email or an empty address,
    [setMemberGeolocationFromIp] throws [IncorrectUsageError] before any
    collaborator is called: the world is exactly as before. *)
Theorem setMemberGeolocationFromIp_requires_arguments (email ip : string) (w : World) :
  truthy_string email = false \/ truthy_string ip = false ->
  setMemberGeolocationFromIp getGeolocationFromIP email ip w =
    (inr (IncorrectUsageError
            "setMemberGeolocationFromIp() expects email and ip arguments to be present"),
     w).
Proof.
  exact (setMemberGeolocationFromIp_missing_arguments getGeolocationFromIP email ip w).
Qed.

(** *** Active subscriptions *)

Lemma existsb_find {A : Type} (p : A -> bool) (l : list A) :
  existsb p l = truthy_object (find p l).
Proof.
  induction l as [|a l IH]; simpl; [reflexivity|].
  destruct (p a); [reflexivity | exact IH].
Qed.

Lemma existsb_orb {A : Type} (p q : A -> bool) (l : list A) :
  existsb (fun a => p a || q a) l = existsb p l || existsb q l.
Proof.
  induction l as [|a l IH]; simpl; [reflexivity|].
  rewrite IH. destruct (p a), (q a), (existsb p l), (existsb q l); reflexivity.
Qed.

Lemma hasActiveStripeSubscriptions_value (w : World) :
  fst (hasActiveStripeSubscriptions w) =
    inl (existsb (fun s => queried_status (sub_status s)) (subscriptions w)).
Proof.
  unfold queried_status. rewrite !existsb_orb, !existsb_find.
  unfold hasActiveStripeSubscriptions, StripeCustomerSubscription_findOne.
  run_js.
  destruct (find _ (subscriptions w)) as [s1|]; simpl; [reflexivity|].
  destruct (find _ (subscriptions w)) as [s2|] in |- *; simpl; [reflexivity|].
  destruct (find _ (subscriptions w)) as [s3|] in |- *; simpl; [reflexivity|].
  destruct (find _ (subscriptions w)) as [s4|] in |- *; simpl; reflexivity.
Qed.

(** X19: the answer of [hasActiveStripeSubscriptions] depends only on which
    subscriptions are stored, not on their order, and adding subscriptions
    never turns it from true to false: if every subscription of one world is
    also in another and the answer is true in the first, it is true in the
    second. *)
Theorem hasActiveStripeSubscriptions_monotone (w w' : World) :
  incl (subscriptions w) (subscriptions w') ->
  fst (hasActiveStripeSubscriptions w) = inl true ->
  fst (hasActiveStripeSubscriptions w') = inl true.
Proof.
  intros Hincl. rewrite !hasActiveStripeSubscriptions_value.
  intros H. injection H as H. f_equal.
  apply existsb_exists in H. destruct H as [s [Hin Hs]].
  apply existsb_exists. exists s. split; [apply Hincl; exact Hin | exact Hs].
Qed.

(** X20: [hasActiveStripeSubscriptions] only reads, and it stops asking at
    the first hit: it leaves the world as it was apart from its own [findOne]
    queries, which are exactly the one for active when an active subscription
    is stored, else those for active and trialing when a trialing one is
    stored, else those for active, trialing and unpaid when an unpaid one is
    stored, and otherwise all four, ending with past_due. *)
Theorem hasActiveStripeSubscriptions_queries_until_first_hit (w : World) :
  let stored status :=
    existsb (fun s => String.eqb (sub_status s) status) (subscriptions w) in
  let n := if stored "active" then 1
           else if stored "trialing" then 2
           else if stored "unpaid" then 3
           else 4 in
  snd (hasActiveStripeSubscriptions w) =
    set_calls (calls w ++ map CallFindOneSubscription
                            (firstn n ["active"; "trialing"; "unpaid"; "past_due"])) w.
Proof.
  cbv beta zeta. rewrite !existsb_find.
  unfold hasActiveStripeSubscriptions, StripeCustomerSubscription_findOne.
  run_js.
  destruct (find _ (subscriptions w)) as [s1|]; simpl; [reflexivity|].
  destruct (find _ (subscriptions w)) as [s2|] in |- *; simpl.
  { unfold set_calls. simpl. rewrite <- !app_assoc. reflexivity. }
  destruct (find _ (subscriptions w)) as [s3|] in |- *; simpl.
  { unfold set_calls. simpl. rewrite <- !app_assoc. reflexivity. }
  destruct (find _ (subscriptions w)) as [s4|] in |- *; simpl;
    (unfold set_calls; simpl; rewrite <- !app_assoc; reflexivity).
Qed.

End MembersMoreFacts.


(** ** The further theorems at concrete worlds *)

Section MoreInstances.
Import MembersAPI Spec.

Lemma create_round_trip_witness :
  let v := OfferDuration.mk "repeating" (Some Samples.three_months) in
  OfferDuration.create (OfferDuration.JsString "repeating")
                       (OfferDuration.JsNumber Samples.three_months) = inl v /\
  OfferDuration.create (OfferDuration.prop_type v) (OfferDuration.prop_months v) = inl v.
Proof.
  split; [reflexivity|].
  exact (create_round_trip (OfferDuration.JsString "repeating")
           (OfferDuration.JsNumber Samples.three_months)
           (OfferDuration.mk "repeating" (Some Samples.three_months)) eq_refl).
Defined.

Lemma handleStripeWebhook_throws_only_RangeError_witness :
  let event := mkWebhookEvent "evt_1" "charge.failed" in
  let thrown := RangeError "Invalid status code: 1000" in
  fst (handleStripeWebhook Samples.parseWebhook Samples.handleWebhook
         Samples.failed_request Samples.world0) = inr thrown /\
  exists signature event err,
    req_stripe_signature Samples.failed_request = Some signature /\
    Samples.parseWebhook (body_raw Samples.failed_request) signature = inl event /\
    fst (Samples.handleWebhook event
           (set_calls (calls Samples.world0 ++
                         [CallParseWebhook (body_raw Samples.failed_request) signature;
                          CallHandleWebhook event])
              (set_log (log Samples.world0 ++
                          [LogInfo ("Handling webhook " ++ ev_type event)])
                 Samples.world0)))
      = inr err /\
    (ToInt32 (statusCode_or_500 err) < 100 \/ 999 < ToInt32 (statusCode_or_500 err))%Z /\
    thrown = RangeError ("Invalid status code: " ++ string_of_Z (statusCode_or_500 err)).
Proof.
  split; [reflexivity|].
  exact (handleStripeWebhook_throws_only_RangeError
           Samples.parseWebhook Samples.handleWebhook
           Samples.failed_request Samples.world0
           (RangeError "Invalid status code: 1000") eq_refl).
Defined.

Lemma handleStripeWebhook_processed_200_witness :
  let event := mkWebhookEvent "evt_1" "customer.subscription.created" in
  let w1 := Samples.world_handling "customer.subscription.created" event in
  let w' := mkWorld (members w1) (login_events w1)
                    (subscriptions w1 ++ [mkSubscription "evt_1" "active"])
                    (outbox w1) (stripe_configured w1) (log w1) (calls w1) in
  stripe_configured Samples.world0 = true /\
  truthy_string "t=1,v1=good" = true /\
  Samples.parseWebhook (body_raw Samples.created_request) "t=1,v1=good" = inl event /\
  Samples.handleWebhook event w1 = (inl tt, w') /\
  handleStripeWebhook Samples.parseWebhook Samples.handleWebhook
    Samples.created_request Samples.world0 = (inl 200%Z, w').
Proof.
  split; [reflexivity|]. split; [reflexivity|]. split; [reflexivity|].
  split; [reflexivity|].
  exact (handleStripeWebhook_processed_200
           Samples.parseWebhook Samples.handleWebhook
           Samples.created_request Samples.world0 _
           "t=1,v1=good"
           (mkWebhookEvent "evt_1" "customer.subscription.created")
           eq_refl eq_refl eq_refl eq_refl eq_refl).
Defined.

Lemma sendEmailWithMagicLink_unforced_types_witness :
  force_option_set Samples.erin_subscribe = false /\
  exists link,
    outbox (snd (sendEmailWithMagicLink Samples.erin_subscribe Samples.world0)) =
      (outbox Samples.world0 ++ [link])%list /\
    ml_email link = "erin@example.com" /\
    (ml_type link = "signin" \/ ml_type link = "signup" \/ ml_type link = "subscribe").
Proof.
  split; [reflexivity|].
  exact (sendEmailWithMagicLink_unforced_types Samples.erin_subscribe Samples.world0
           eq_refl).
Defined.

Lemma world0_unique : unique_members (members Samples.world0).
Proof.
  split; simpl; repeat constructor; simpl; intuition discriminate.
Qed.

Lemma getMemberDataFromMagicLinkToken_keeps_unique_witness :
  unique_members (members Samples.world0) /\
  unique_members
    (members (snd (getMemberDataFromMagicLinkToken Samples.getDataFromToken
                     "signup-dave" Samples.world0))).
Proof.
  split; [exact world0_unique|].
  exact (getMemberDataFromMagicLinkToken_keeps_unique Samples.getDataFromToken
           "signup-dave" Samples.world0 world0_unique).
Defined.

Lemma getMemberDataFromMagicLinkToken_twice_witness :
  let r1 := getMemberDataFromMagicLinkToken Samples.getDataFromToken "signup-erin"
              Samples.world0 in
  let r2 := getMemberDataFromMagicLinkToken Samples.getDataFromToken "signup-erin"
              (snd r1) in
  Samples.getDataFromToken "signup-erin" =
    inl (mkTokenData (Some "erin@example.com") None None None) /\
  truthy_string "erin@example.com" = true /\
  truthy_opt_string (@None string) = false /\
  find_by_email "erin@example.com" (members Samples.world0) = None /\
  fst r1 = inl (Some Samples.erin) /\
  fst r2 = inl (Some Samples.erin) /\
  members (snd r2) = [Samples.alice; Samples.bob; Samples.erin] /\
  login_events (snd r2) = [mkLoginEvent 1; mkLoginEvent 3; mkLoginEvent 3].
Proof.
  split; [reflexivity|]. split; [reflexivity|]. split; [reflexivity|].
  split; [reflexivity|].
  exact (getMemberDataFromMagicLinkToken_twice Samples.getDataFromToken "signup-erin"
           (mkTokenData (Some "erin@example.com") None None None)
           "erin@example.com" Samples.world0
           eq_refl eq_refl eq_refl eq_refl eq_refl).
Defined.

Lemma redeemed_email_gets_signin_links_witness :
  let w1 := snd (getMemberDataFromMagicLinkToken Samples.getDataFromToken "signup-erin"
                   Samples.world0) in
  Samples.getDataFromToken "signup-erin" =
    inl (mkTokenData (Some "erin@example.com") None None None) /\
  truthy_string "erin@example.com" = true /\
  truthy_opt_string (@None string) = false /\
  force_option_set Samples.erin_subscribe = false /\
  outbox (snd (sendEmailWithMagicLink Samples.erin_subscribe w1)) =
    [mkMagicLink "erin@example.com" "signin" ""
                 (mkTokenData (Some "erin@example.com") None None None)].
Proof.
  split; [reflexivity|]. split; [reflexivity|]. split; [reflexivity|].
  split; [reflexivity|].
  exact (redeemed_email_gets_signin_links Samples.getDataFromToken "signup-erin"
           (mkTokenData (Some "erin@example.com") None None None)
           Samples.erin_subscribe Samples.world0
           eq_refl eq_refl eq_refl eq_refl eq_refl).
Defined.

Lemma world0_unique_emails : NoDup (map m_email (members Samples.world0)).
Proof.
  exact (proj2 world0_unique).
Qed.

Lemma email_change_moves_identity_witness :
  let r := getMemberDataFromMagicLinkToken Samples.getDataFromToken "alice-to-carol"
             Samples.world0 in
  let carol := set_email "carol@example.com" Samples.alice in
  Samples.getDataFromToken "alice-to-carol" =
    inl (mkTokenData (Some "carol@example.com") None None (Some "alice@example.com")) /\
  truthy_string "alice@example.com" = true /\
  truthy_string "carol@example.com" = true /\
  "alice@example.com" <> "carol@example.com" /\
  find_by_email "alice@example.com" (members Samples.world0) = Some Samples.alice /\
  email_taken_by_other "carol@example.com" 1 (members Samples.world0) = false /\
  NoDup (map m_email (members Samples.world0)) /\
  fst r = inl (Some carol) /\
  fst (getMemberIdentityData "alice@example.com" (snd r)) = inl None /\
  fst (getMemberIdentityData "carol@example.com" (snd r)) = inl (Some carol).
Proof.
  split; [reflexivity|]. split; [reflexivity|]. split; [reflexivity|].
  split; [discriminate|]. split; [reflexivity|]. split; [reflexivity|].
  split; [exact world0_unique_emails|].
  exact (email_change_moves_identity Samples.getDataFromToken "alice-to-carol"
           (mkTokenData (Some "carol@example.com") None None (Some "alice@example.com"))
           "alice@example.com" "carol@example.com" Samples.alice Samples.world0
           eq_refl eq_refl eq_refl eq_refl eq_refl
           (fun H : "alice@example.com" = "carol@example.com" =>
              eq_ind "alice@example.com"
                     (fun s => match s with
                               | String "a" _ => True
                               | _ => False
                               end) I _ H)
           eq_refl eq_refl world0_unique_emails).
Defined.


Lemma world0_unique_ids : NoDup (map m_id (members Samples.world0)).
Proof.
  exact (proj1 world0_unique).
Qed.

Lemma setMemberGeolocationFromIp_only_geolocation_witness :
  let r := setMemberGeolocationFromIp Samples.getGeolocationFromIP
             "alice@example.com" "198.51.100.4" Samples.world0 in
  NoDup (map m_id (members Samples.world0)) /\
  map forget_geolocation (members (snd r)) =
    map forget_geolocation (members Samples.world0) /\
  login_events (snd r) = login_events Samples.world0 /\
  subscriptions (snd r) = subscriptions Samples.world0 /\
  outbox (snd r) = outbox Samples.world0.
Proof.
  split; [exact world0_unique_ids|].
  exact (setMemberGeolocationFromIp_only_geolocation Samples.getGeolocationFromIP
           "alice@example.com" "198.51.100.4" Samples.world0 world0_unique_ids).
Defined.

Lemma setMemberGeolocationFromIp_requires_arguments_witness :
  (truthy_string "alice@example.com" = false \/ truthy_string "" = false) /\
  setMemberGeolocationFromIp Samples.getGeolocationFromIP "alice@example.com" ""
    Samples.world0 =
    (inr (IncorrectUsageError
            "setMemberGeolocationFromIp() expects email and ip arguments to be present"),
     Samples.world0).
Proof.
  split; [right; reflexivity|].
  exact (setMemberGeolocationFromIp_requires_arguments Samples.getGeolocationFromIP
           "alice@example.com" "" Samples.world0 (or_intror eq_refl)).
Defined.

Lemma hasActiveStripeSubscriptions_monotone_witness :
  incl (subscriptions Samples.world0) (subscriptions Samples.world_more_subscriptions) /\
  fst (hasActiveStripeSubscriptions Samples.world0) = inl true /\
  fst (hasActiveStripeSubscriptions Samples.world_more_subscriptions) = inl true.
Proof.
  assert (Hincl : incl (subscriptions Samples.world0)
                       (subscriptions Samples.world_more_subscriptions)).
  { intros s [<- | [<- | []]]; simpl; tauto. }
  split; [exact Hincl|]. split; [reflexivity|].
  exact (hasActiveStripeSubscriptions_monotone Samples.world0
           Samples.world_more_subscriptions Hincl eq_refl).
Defined.

End MoreInstances.
